(** * inclusiveflow: a shallow embedding of the flow runtime's checked parts

    The development follows the Go sources package by package:
    - [Contacts]     flows/contact.go, group membership
    - [ContactJSON]  flows/contact.go, decoding a contact
    - [Issues]       flows/issues, the missing dependency check
    - [AssetServer]  the server asset source, fetchAsset
    - [Classify]     flows/actions/call_classifier.go
    - [Channels]     the channel router of the specification
    - [Fixtures]     the inputs of the examples
    and the theorems come after, one module of facts for each.

    Go values are modelled as the code has them: a slice is a list that
    may be nil, a pointer is an option, a callback that logs is a list of
    what was logged, in order. *)

From Stdlib Require Import ZArith String Ascii List Bool Lia.
From Stdlib Require Import DecimalString.
From stdpp Require Import base option list strings gmap.

Set Default Proof Using "Type".

(** ** Go slices

    A slice is either nil or a (possibly empty) sequence; [range] and
    [len] do not tell the two apart, [== nil] does. *)
Module GoSlice.

Definition slice (A : Type) : Type := option (list A).

Definition nil_slice {A} : slice A := None.

(** [make([]T, 0)] *)
Definition make0 {A} : slice A := Some [].

Definition elems {A} (s : slice A) : list A :=
  match s with
  | None => []
  | Some l => l
  end.

Definition is_nil {A} (s : slice A) : bool :=
  match s with
  | None => true
  | Some _ => false
  end.

(** [append(s, x)]: the result is never nil. *)
Definition append1 {A} (s : slice A) (x : A) : slice A := Some (elems s ++ [x]).

(** [append(s[:i], s[i+1:]...)] for [i < len(s)]; never nil. *)
Definition cut {A} (s : slice A) (i : nat) : slice A :=
  Some (take i (elems s) ++ drop (S i) (elems s)).

End GoSlice.

(** ** Go errors

    An [error] value is known by its message; [nil] is [None] at
    type [option error]. *)
Module GoError.

Record error : Type := errors_New { Error : string }.

Definition Errorf (msg : string) : error := errors_New msg.

(** [%d] of an [int]. *)
Definition fmt_d (n : Z) : string := NilZero.string_of_int (Z.to_int n).

End GoError.

(** ** flows/contact.go *)
Module Contacts.
Import GoSlice.

Definition ContactUUID := string.
Definition GroupUUID := string.
Definition Language := string.
Definition URN := string.

Record Group : Type := mkGroup {
  group_uuid : GroupUUID;
  group_name : string
}.

Definition URNList := slice URN.
Definition GroupList := slice Group.

(** Modelled from the spec: the [Fields] type and [NewFields] are not
    among the sources.  The specification describes a contact's fields
    as "a Fields map (key -> typed value)"; [NewFields] is the empty
    map.  Values are kept as their text. *)
Definition Fields : Type := gmap string string.
Definition NewFields : Fields := ∅.

Record Contact : Type := mkContact {
  uuid : ContactUUID;
  name : string;
  language : Language;
  urns : URNList;
  groups : GroupList;
  fields : option Fields
}.

(** [&Contact{}] *)
Definition zeroContact : Contact :=
  mkContact EmptyString EmptyString EmptyString nil_slice nil_slice None.

Definition SetLanguage (c : Contact) (lang : Language) : Contact :=
  mkContact (uuid c) (name c) lang (urns c) (groups c) (fields c).

Definition SetName (c : Contact) (n : string) : Contact :=
  mkContact (uuid c) n (language c) (urns c) (groups c) (fields c).

Definition URNs (c : Contact) : URNList := urns c.
Definition Groups (c : Contact) : GroupList := groups c.
Definition GetFields (c : Contact) : option Fields := fields c.

Definition set_groups (c : Contact) (gs : GroupList) : Contact :=
  mkContact (uuid c) (name c) (language c) (urns c) gs (fields c).

(** [c.groups = append(c.groups, &Group{uuid, name})] *)
Definition AddGroup (c : Contact) (u : GroupUUID) (n : string) : Contact :=
  set_groups c (append1 (groups c) (mkGroup u n)).

(** The index at which the loop of [RemoveGroup] stops: the first [i]
    with [c.groups[i].uuid == uuid]. *)
Fixpoint first_index (u : GroupUUID) (l : list Group) : option nat :=
  match l with
  | [] => None
  | g :: rest =>
      if String.eqb (group_uuid g) u then Some 0
      else match first_index u rest with
           | Some i => Some (S i)
           | None => None
           end
  end.

(** [RemoveGroup] returns the contact after the call and the boolean. *)
Definition RemoveGroup (c : Contact) (u : GroupUUID) : Contact * bool :=
  match first_index u (elems (groups c)) with
  | Some i => (set_groups c (cut (groups c) i), true)
  | None => (c, false)
  end.

(** The UUIDs of a contact's memberships, in order. *)
Definition group_uuids (c : Contact) : list GroupUUID :=
  group_uuid <$> elems (groups c).

(** Groups are unique by identity. *)
Definition unique_groups (c : Contact) : Prop := NoDup (group_uuids c).

(** The mutating operations of a contact. *)
Inductive ContactOp : Type :=
  | OpSetLanguage (lang : Language)
  | OpSetName (n : string)
  | OpAddGroup (u : GroupUUID) (n : string)
  | OpRemoveGroup (u : GroupUUID).

Definition apply_op (c : Contact) (op : ContactOp) : Contact :=
  match op with
  | OpSetLanguage lang => SetLanguage c lang
  | OpSetName n => SetName c n
  | OpAddGroup u n => AddGroup c u n
  | OpRemoveGroup u => fst (RemoveGroup c u)
  end.

Definition apply_ops (c : Contact) (ops : list ContactOp) : Contact :=
  fold_left apply_op ops c.

(** A sequence of operations adds only fresh groups when every
    [AddGroup] names a UUID the contact does not hold at that moment. *)
Fixpoint adds_fresh (c : Contact) (ops : list ContactOp) : Prop :=
  match ops with
  | [] => True
  | op :: rest =>
      match op with
      | OpAddGroup u _ => u ∉ group_uuids c
      | _ => True
      end /\ adds_fresh (apply_op c op) rest
  end.

End Contacts.

(** ** flows/contact.go: JSON decoding *)
Module ContactJSON.
Import GoSlice GoError Contacts.

(** A JSON text that parsed; an object keeps its members in the order
    and with the repetitions of the text. *)
#[warnings="-register-all"]
Inductive JSON : Type :=
  | JNull
  | JBool (b : bool)
  | JNumber (digits : string)
  | JString (s : string)
  | JArray (items : list JSON)
  | JObject (members : list (string * JSON)).

(** The members of the envelope, by their [json] tag. *)
Inductive envelope_field : Type :=
  | F_uuid | F_name | F_language | F_urns | F_groups | F_fields.

#[export] Instance envelope_field_eq_dec : EqDecision envelope_field.
Proof. solve_decision. Defined.

Definition tag (f : envelope_field) : string :=
  match f with
  | F_uuid => "uuid"
  | F_name => "name"
  | F_language => "language"
  | F_urns => "urns"
  | F_groups => "groups"
  | F_fields => "fields"
  end.

Record contactEnvelope : Type := mkEnvelope {
  ce_UUID : ContactUUID;
  ce_Name : string;
  ce_Language : Language;
  ce_URNs : URNList;
  ce_Groups : GroupList;
  ce_Fields : option Fields
}.

(** The members that can be nil: the slices and the pointer. *)
Definition nillable (f : envelope_field) : bool :=
  match f with
  | F_urns | F_groups | F_fields => true
  | _ => false
  end.

(** Whether the member of the envelope for a field is nil; a string
    member never is. *)
Definition nil_at (f : envelope_field) (ce : contactEnvelope) : bool :=
  match f with
  | F_urns => is_nil (ce_URNs ce)
  | F_groups => is_nil (ce_Groups ce)
  | F_fields => match ce_Fields ce with None => true | Some _ => false end
  | _ => false
  end.

(** [var ce contactEnvelope] *)
Definition zeroEnvelope : contactEnvelope :=
  mkEnvelope EmptyString EmptyString EmptyString nil_slice nil_slice None.

Definition envelope_fields : list envelope_field :=
  [F_uuid; F_name; F_language; F_urns; F_groups; F_fields].

Definition is_ok {A} (r : error + A) : bool :=
  match r with
  | inr _ => true
  | inl _ => false
  end.

(** The Go type of a member of the envelope, as [reflect] prints it. *)
Definition go_type (f : envelope_field) : string :=
  match f with
  | F_uuid => "flows.ContactUUID"
  | F_name => "string"
  | F_language => "utils.Language"
  | F_urns => "flows.URNList"
  | F_groups => "flows.GroupList"
  | F_fields => "*flows.Fields"
  end.

Definition json_kind (v : JSON) : string :=
  match v with
  | JNull => "null"
  | JBool _ => "bool"
  | JNumber _ => "number"
  | JString _ => "string"
  | JArray _ => "array"
  | JObject _ => "object"
  end.

(** [json.UnmarshalTypeError] for a value of the wrong shape: at a
    member of the envelope, or at the document itself. *)
Definition type_error (member : option envelope_field) (v : JSON) : error :=
  Errorf ("json: cannot unmarshal " +:+ json_kind v
          +:+ match member with
              | Some f =>
                  " into Go struct field contactEnvelope." +:+ tag f
                  +:+ " of type " +:+ go_type f
              | None => " into Go value of type flows.contactEnvelope"
              end).

(** Decoding the elements of an array, first error first. *)
Fixpoint decode_items {A} (dec : JSON -> error + A) (items : list JSON)
  : error + list A :=
  match items with
  | [] => inr []
  | i :: rest =>
      match dec i with
      | inl err => inl err
      | inr x =>
          match decode_items dec rest with
          | inl err => inl err
          | inr xs => inr (x :: xs)
          end
      end
  end.

(** A string member: null leaves the value as it is. *)
Definition decode_string (f : envelope_field) (current : string) (v : JSON)
  : error + string :=
  match v with
  | JNull => inr current
  | JString s => inr s
  | _ => inl (type_error (Some f) v)
  end.

(** A slice member: null makes it nil, an array (also an empty one) a
    slice that is not nil. *)
Definition decode_slice {A} (f : envelope_field) (dec : JSON -> error + A) (v : JSON)
  : error + slice A :=
  match v with
  | JNull => inr nil_slice
  | JArray items =>
      match decode_items dec items with
      | inl err => inl err
      | inr xs => inr (Some xs)
      end
  | _ => inl (type_error (Some f) v)
  end.

Section Decode.
(** [encoding/json] matches a key to a member by its exact tag, else by
    its case folding. *)
Variable equalFold : string -> string -> bool.
(** The decoders of a URN, of a group and of the fields, which are not
    among the sources. *)
Variable unmarshalURN : JSON -> error + URN.
Variable unmarshalGroup : JSON -> error + Group.
Variable unmarshalFields : JSON -> error + Fields.

Definition field_for_key (key : string) : option envelope_field :=
  match List.find (fun f => String.eqb (tag f) key) envelope_fields with
  | Some f => Some f
  | None => List.find (fun f => equalFold (tag f) key) envelope_fields
  end.

(** A pointer member: null makes it nil. *)
Definition decode_fields (v : JSON) : error + option Fields :=
  match v with
  | JNull => inr None
  | _ =>
      match unmarshalFields v with
      | inl err => inl err
      | inr fs => inr (Some fs)
      end
  end.

Definition decode_member (ce : contactEnvelope) (kv : string * JSON)
  : error + contactEnvelope :=
  match field_for_key (fst kv) with
  | None => inr ce
  | Some F_uuid =>
      match decode_string F_uuid (ce_UUID ce) (snd kv) with
      | inl err => inl err
      | inr x => inr (mkEnvelope x (ce_Name ce) (ce_Language ce) (ce_URNs ce)
                        (ce_Groups ce) (ce_Fields ce))
      end
  | Some F_name =>
      match decode_string F_name (ce_Name ce) (snd kv) with
      | inl err => inl err
      | inr x => inr (mkEnvelope (ce_UUID ce) x (ce_Language ce) (ce_URNs ce)
                        (ce_Groups ce) (ce_Fields ce))
      end
  | Some F_language =>
      match decode_string F_language (ce_Language ce) (snd kv) with
      | inl err => inl err
      | inr x => inr (mkEnvelope (ce_UUID ce) (ce_Name ce) x (ce_URNs ce)
                        (ce_Groups ce) (ce_Fields ce))
      end
  | Some F_urns =>
      match decode_slice F_urns unmarshalURN (snd kv) with
      | inl err => inl err
      | inr x => inr (mkEnvelope (ce_UUID ce) (ce_Name ce) (ce_Language ce) x
                        (ce_Groups ce) (ce_Fields ce))
      end
  | Some F_groups =>
      match decode_slice F_groups unmarshalGroup (snd kv) with
      | inl err => inl err
      | inr x => inr (mkEnvelope (ce_UUID ce) (ce_Name ce) (ce_Language ce)
                        (ce_URNs ce) x (ce_Fields ce))
      end
  | Some F_fields =>
      match decode_fields (snd kv) with
      | inl err => inl err
      | inr x => inr (mkEnvelope (ce_UUID ce) (ce_Name ce) (ce_Language ce)
                        (ce_URNs ce) (ce_Groups ce) x)
      end
  end.

Fixpoint decode_members (members : list (string * JSON)) (ce : contactEnvelope)
  : error + contactEnvelope :=
  match members with
  | [] => inr ce
  | kv :: rest =>
      match decode_member ce kv with
      | inl err => inl err
      | inr ce' => decode_members rest ce'
      end
  end.

(** [json.Unmarshal(data, &ce)] on a zero envelope. *)
Definition unmarshal_envelope (data : JSON) : error + contactEnvelope :=
  match data with
  | JObject members => decode_members members zeroEnvelope
  | JNull => inr zeroEnvelope
  | _ => inl (type_error None data)
  end.

(** [UnmarshalJSON]: the contact after the call and the error. *)
Definition UnmarshalJSON (c : Contact) (data : JSON) : Contact * option error :=
  match unmarshal_envelope data with
  | inl err => (c, Some err)
  | inr ce =>
      (mkContact (ce_UUID ce) (ce_Name ce) (ce_Language ce)
         (if is_nil (ce_URNs ce) then make0 else ce_URNs ce)
         (if is_nil (ce_Groups ce) then make0 else ce_Groups ce)
         (match ce_Fields ce with
          | None => Some NewFields
          | Some fs => Some fs
          end),
       None)
  end.

(** [ReadContact] *)
Definition ReadContact (data : JSON) : Contact * option error :=
  UnmarshalJSON zeroContact data.

(** The value a document gives a member of the envelope: that of the
    last member the decoder takes for it. *)
Definition seen (f : envelope_field) (acc : option JSON) (kv : string * JSON)
  : option JSON :=
  match field_for_key (fst kv) with
  | Some f' => if decide (f' = f) then Some (snd kv) else acc
  | None => acc
  end.

Definition member_of (f : envelope_field) (members : list (string * JSON))
  : option JSON :=
  fold_left (seen f) members None.

Definition null_so_far (acc : option JSON) : bool :=
  match acc with
  | None | Some JNull => true
  | Some _ => false
  end.

Definition absent_or_null (f : envelope_field) (data : JSON) : bool :=
  match data with
  | JObject members => null_so_far (member_of f members)
  | _ => false
  end.

(** A contact document: an object whose members have the shape of the
    envelope. *)
Definition string_or_null (v : JSON) : bool :=
  match v with
  | JNull | JString _ => true
  | _ => false
  end.

Definition array_or_null {A} (dec : JSON -> error + A) (v : JSON) : bool :=
  match v with
  | JNull => true
  | JArray items => forallb (fun i => is_ok (dec i)) items
  | _ => false
  end.

Definition fields_or_null (v : JSON) : bool :=
  match v with
  | JNull => true
  | _ => is_ok (unmarshalFields v)
  end.

Definition well_formed_member (kv : string * JSON) : bool :=
  match field_for_key (fst kv) with
  | None => true
  | Some F_uuid | Some F_name | Some F_language => string_or_null (snd kv)
  | Some F_urns => array_or_null unmarshalURN (snd kv)
  | Some F_groups => array_or_null unmarshalGroup (snd kv)
  | Some F_fields => fields_or_null (snd kv)
  end.

Definition contact_document (data : JSON) : bool :=
  match data with
  | JObject members => forallb well_formed_member members
  | _ => false
  end.
End Decode.

End ContactJSON.

(** ** flows/issues: the missing dependency check *)
Module Issues.

Definition NodeUUID := string.
Definition ActionUUID := string.

(** [assets.Reference]: what the check reads of a reference. *)
Class Reference (R : Type) : Type := {
  Type_ : R -> string;
  Identity : R -> string
}.

Record Node : Type := mkNode { node_UUID : NodeUUID }.
Record Action : Type := mkAction { action_UUID : ActionUUID }.

(** [flows.ExtractedReference]; [Action] is nil for a reference that
    does not come from an action. *)
Record ExtractedReference (R : Type) : Type := mkExtractedReference {
  ref_Node : Node;
  ref_Action : option Action;
  ref_Reference : R
}.
Arguments mkExtractedReference {R} _ _ _.
Arguments ref_Node {R} _.
Arguments ref_Action {R} _.
Arguments ref_Reference {R} _.

Definition TypeMissingDependency : string := "missing_dependency".

(** [assets.NewTypedReference] *)
Record TypedReference (R : Type) : Type := mkTypedReference {
  typed_Reference : R;
  typed_Type : string
}.
Arguments mkTypedReference {R} _ _.
Arguments typed_Reference {R} _.
Arguments typed_Type {R} _.

Definition NewTypedReference {R} `{Reference R} (r : R) : TypedReference R :=
  mkTypedReference r (Type_ r).

(** [baseIssue] as [newBaseIssue] fills it. *)
Record baseIssue : Type := newBaseIssue {
  issue_Type : string;
  issue_NodeUUID : NodeUUID;
  issue_ActionUUID : ActionUUID;
  issue_Description : string
}.

Record MissingDependency (R : Type) : Type := mkMissingDependency {
  base : baseIssue;
  Dependency : TypedReference R
}.
Arguments mkMissingDependency {R} _ _.
Arguments base {R} _.
Arguments Dependency {R} _.

Definition newMissingDependency {R} `{Reference R}
    (nodeUUID : NodeUUID) (actionUUID : ActionUUID) (ref : R) : MissingDependency R :=
  mkMissingDependency
    (newBaseIssue TypeMissingDependency nodeUUID actionUUID
       ("missing " +:+ Type_ ref +:+ " dependency '" +:+ Identity ref +:+ "'"))
    (NewTypedReference ref).

Section Check.
Context {R : Type} `{Reference R}.
(** Session assets and the flow are only passed along. *)
Context {SessionAssets Flow : Type}.
(** [ExtractedReference.Check], which is not among the sources. *)
Variable Check : ExtractedReference R -> SessionAssets -> bool.

(** The zero [ActionUUID] unless the reference has an action. *)
Definition actionUUID_of (ref : ExtractedReference R) : ActionUUID :=
  match ref_Action ref with
  | Some a => action_UUID a
  | None => EmptyString
  end.

(** One turn of the loop; [report] is a callback into the caller's
    state [S]. *)
Definition check_one {S : Type} (sa : SessionAssets)
    (report : MissingDependency R -> S -> S) (s : S)
    (ref : ExtractedReference R) : S :=
  if negb (Check ref sa)
  then report (newMissingDependency (node_UUID (ref_Node ref))
                 (actionUUID_of ref) (ref_Reference ref)) s
  else s.

Definition MissingDependencyCheck {S : Type} (sa : SessionAssets) (flow : Flow)
    (refs : list (ExtractedReference R))
    (report : MissingDependency R -> S -> S) (s : S) : S :=
  fold_left (check_one sa report) refs s.

(** The issues in the order they are reported. *)
Definition reported (sa : SessionAssets) (flow : Flow)
    (refs : list (ExtractedReference R)) : list (MissingDependency R) :=
  MissingDependencyCheck sa flow refs (fun i acc => acc ++ [i]) [].
End Check.

End Issues.

(** ** The server asset source *)
Module AssetServer.
Import GoSlice GoError.

Definition AssetType := string.

(** [http.Header]: values by canonical key. *)
Definition Header : Type := gmap string (list string).

Definition Header_Get (h : Header) (key : string) : string :=
  match h !! key with
  | Some (v :: _) => v
  | _ => EmptyString
  end.

Definition Header_Set (h : Header) (key value : string) : Header :=
  <[key := [value]]> h.

Record Request : Type := mkRequest {
  req_Method : string;
  req_URL : string;
  req_Header : Header
}.

(** A response; [resp_Body] is what [ioutil.ReadAll] gives for it. *)
Record Response : Type := mkResponse {
  StatusCode : Z;
  resp_Header : Header;
  resp_Body : slice Byte.byte * option error
}.

(** [utils.HTTPClient]: the outcome of [Do] for a request. *)
Record HTTPClient : Type := mkHTTPClient {
  Do : Request -> error + Response
}.

Record ServerSource : Type := mkServerSource {
  authToken : string;
  typeURLs : gmap AssetType string;
  httpClient : HTTPClient
}.

(** [request.Header.Set("Authorization", fmt.Sprintf("Token %s", s.authToken))] *)
Definition set_Authorization (s : ServerSource) (request : Request) : Request :=
  mkRequest (req_Method request) (req_URL request)
    (Header_Set (req_Header request) "Authorization" ("Token " +:+ authToken s)).

Section Fetch.
(** [http.NewRequest] with a nil body: a request or the error of
    parsing the URL. *)
Variable http_NewRequest : string -> string -> error + Request.

Definition fetchAsset (s : ServerSource) (url : string) (itemType : AssetType)
  : slice Byte.byte * option error :=
  match http_NewRequest "GET" url with
  | inl err => (nil_slice, Some err)
  | inr request =>
      let request := set_Authorization s request in
      match Do (httpClient s) request with
      | inl err => (nil_slice, Some err)
      | inr response =>
          if negb (StatusCode response =? 200)%Z then
            (nil_slice,
             Some (Errorf ("request returned non-200 response ("
                           +:+ fmt_d (StatusCode response) +:+ ")")))
          else if negb (String.eqb (Header_Get (resp_Header response) "Content-Type")
                          "application/json") then
            (nil_slice, Some (Errorf "request returned non-JSON response"))
          else resp_Body response
      end
  end.

(** [getAssetURL] *)
Definition getAssetURL (s : ServerSource) (itemType : AssetType) (itemUUID : string)
  : string * option error :=
  match typeURLs s !! itemType with
  | None =>
      (EmptyString,
       Some (Errorf ("asset type '" +:+ itemType +:+ "' not supported by asset server")))
  | Some url =>
      if negb (String.eqb itemUUID EmptyString)
      then (url +:+ itemUUID +:+ "/", None)
      else (url, None)
  end.
End Fetch.

End AssetServer.

(** ** flows/actions/call_classifier.go *)
Module Classify.
Import GoError.

Definition ClassifierUUID := string.
Definition ActionUUID := string.
Definition NodeUUID := string.

(** [assets.ClassifierReference] *)
Record ClassifierReference : Type := mkClassifierReference {
  ref_UUID : ClassifierUUID;
  ref_Name : string
}.

(** [flows.Classifier], an asset of the session. *)
Record Classifier : Type := mkClassifier {
  classifier_UUID : ClassifierUUID;
  classifier_Name : string
}.

Definition Classifier_Reference (c : Classifier) : ClassifierReference :=
  mkClassifierReference (classifier_UUID c) (classifier_Name c).

(** Of [flows.Classification] the action reads the ranked intents. *)
Record ExtractedIntent : Type := mkIntent { intent_Name : string }.
Record Classification : Type := mkClassification { Intents : list ExtractedIntent }.

(** One entry of [flows.HTTPLogger.Logs]. *)
Record HTTPLog : Type := mkHTTPLog { log_URL : string; log_Status : Z }.

(** A classification service, as [Classify] answers for an input: the
    classification, the error and the HTTP calls it logged. *)
Definition ClassificationService : Type :=
  string -> option Classification * option error * list HTTPLog.

(** Modelled from the spec: the category constants are not among the
    sources; the specification names the categories "success",
    "skipped" and "failure". *)
Definition CategorySuccess : string := "success".
Definition CategorySkipped : string := "skipped".
Definition CategoryFailure : string := "failure".

Definition classificationCategories : list string :=
  [CategorySuccess; CategorySkipped; CategoryFailure].

Definition TypeCallClassifier : string := "call_classifier".

(** Modelled from the spec: [flows.Result] is not among the sources.
    The specification lists value, category, input, extracted data and
    created time; the clock is left out. *)
Record Result : Type := NewResult {
  res_Name : string;
  res_Value : string;
  res_Category : string;
  res_CategoryLocalized : string;
  res_NodeUUID : NodeUUID;
  res_Input : string;
  res_Extra : option string
}.

(** What [logEvent] receives. *)
Inductive Event : Type :=
  | EvError (text : string)
  | EvClassifierCalled (classifier : ClassifierReference) (logs : list HTTPLog)
  | EvRunResultChanged (result : Result).

(** [events.NewError] *)
Definition NewError (err : error) : Event := EvError (Error err).

Definition NewClassifierCalled (classifier : ClassifierReference)
    (logs : list HTTPLog) : Event :=
  EvClassifierCalled classifier logs.

Record Step : Type := mkStep { step_NodeUUID : NodeUUID }.

(** What the action reaches through [flows.FlowRun]: the classifier
    assets of the session, the template evaluator, the classification
    services of the engine and the run's named results. *)
Record FlowRun : Type := mkFlowRun {
  run_Classifiers : gmap ClassifierUUID Classifier;
  run_EvaluateTemplate : string -> string * option error;
  run_Classification : Classifier -> error + ClassificationService;
  run_Results : gmap string Result
}.

Record CallClassifierAction : Type := NewCallClassifier {
  act_UUID : ActionUUID;
  act_Classifier : ClassifierReference;
  act_Input : string;
  act_ResultName : string
}.

(** Modelled from the spec: [baseAction.saveResult] is not among the
    sources.  The specification has a run hold "a mapping of named
    Results" and has an event "record that a change occurred": the
    result is stored under its name and logged as a changed result. *)
Definition saveResult (run : FlowRun) (step : Step)
    (name value category categoryLocalized input : string) (extra : option string)
    (log : list Event) : FlowRun * list Event :=
  let result :=
    NewResult name value category categoryLocalized (step_NodeUUID step) input extra in
  (mkFlowRun (run_Classifiers run) (run_EvaluateTemplate run)
     (run_Classification run) (<[name := result]> (run_Results run)),
   log ++ [EvRunResultChanged result]).

(** How [Execute] ends: it returns, or it dereferences a nil
    classification; either way with the events that were passed to
    [logEvent] up to then. *)
Inductive Outcome : Type :=
  | Returned (run : FlowRun) (events : list Event) (err : option error)
  | Panicked (events : list Event).

(** The events passed to [logEvent] in an execution. *)
Definition events_logged (o : Outcome) : list Event :=
  match o with
  | Returned _ events _ => events
  | Panicked events => events
  end.

(** [if err != nil { logEvent(events.NewError(err)) }] on a fresh log. *)
Definition template_errors (err : option error) : list Event :=
  match err with
  | Some err => [NewError err]
  | None => []
  end.

Section Action.
(** [ClassifierReference.String] and [json.Marshal] of a classification. *)
Variable Reference_String : ClassifierReference -> string.
Variable json_Marshal : Classification -> string.

(** [classify]; [log] is what has been passed to [logEvent] so far. *)
Definition classify (a : CallClassifierAction) (run : FlowRun) (step : Step)
    (input : string) (classifier : option Classifier) (log : list Event)
  : option Classification * bool * option error * list Event :=
  if String.eqb input EmptyString then
    (None, true,
     Some (errors_New "can't classify empty input, skipping classification"), log)
  else
    match classifier with
    | None =>
        (None, false,
         Some (Errorf ("missing " +:+ Reference_String (act_Classifier a))), log)
    | Some classifier =>
        match run_Classification run classifier with
        | inl err => (None, false, Some err, log)
        | inr svc =>
            let '(classification, err, logs) := svc input in
            let log :=
              if (0 <? length logs)%nat
              then log ++ [NewClassifierCalled (Classifier_Reference classifier) logs]
              else log in
            (classification, false, err, log)
        end
    end.

(** [saveSuccess]; [None] when the classification is nil. *)
Definition saveSuccess (a : CallClassifierAction) (run : FlowRun) (step : Step)
    (input : string) (classification : option Classification) (log : list Event)
  : option (FlowRun * list Event) :=
  match classification with
  | None => None
  | Some classification =>
      let value :=
        match Intents classification with
        | i :: _ => intent_Name i
        | [] => EmptyString
        end in
      let extra := json_Marshal classification in
      Some (saveResult run step (act_ResultName a) value CategorySuccess EmptyString
              input (Some extra) log)
  end.

Definition saveSkipped (a : CallClassifierAction) (run : FlowRun) (step : Step)
    (input : string) (log : list Event) : FlowRun * list Event :=
  saveResult run step (act_ResultName a) "0" CategorySkipped EmptyString input None log.

Definition saveFailure (a : CallClassifierAction) (run : FlowRun) (step : Step)
    (input : string) (log : list Event) : FlowRun * list Event :=
  saveResult run step (act_ResultName a) "0" CategoryFailure EmptyString input None log.

(** [Execute]; the events are those passed to [logEvent], in order. *)
Definition Execute (a : CallClassifierAction) (run : FlowRun) (step : Step) : Outcome :=
  let classifier := run_Classifiers run !! ref_UUID (act_Classifier a) in
  let '(input, err) := run_EvaluateTemplate run (act_Input a) in
  let log := template_errors err in
  let '(classification, skipped, err, log) :=
    classify a run step input classifier log in
  match err with
  | Some err =>
      let log := log ++ [NewError err] in
      let '(run, log) :=
        if skipped then saveSkipped a run step input log
        else saveFailure a run step input log in
      Returned run log None
  | None =>
      match saveSuccess a run step input classification log with
      | Some (run, log) => Returned run log None
      | None => Panicked log
      end
  end.

(** An event of the external call. *)
Definition is_classifier_called (e : Event) : bool :=
  match e with
  | EvClassifierCalled _ _ => true
  | _ => false
  end.
End Action.

End Classify.

(** ** The channel router

    The router ([ChannelAssets.GetForURN]) is not among the sources;
    only its test is.  Every definition of this module that decides a
    resolution is modelled from section 4.3 of the specification. *)
Module Channels.

Definition ChannelUUID := string.

Inductive ChannelRole : Type :=
  | ChannelRoleSend
  | ChannelRoleReceive
  | ChannelRoleCall
  | ChannelRoleAnswer.

#[export] Instance ChannelRole_eq_dec : EqDecision ChannelRole.
Proof. solve_decision. Defined.

(** A channel definition: "UUID, name, address, one or more addressing
    schemes, a capability-role set, optional declared country, optional
    explicit matching number-prefixes, and an optional delegation
    relation to another channel", the latter by identity. *)
Record Channel : Type := mkChannel {
  ch_UUID : ChannelUUID;
  ch_Name : string;
  ch_Address : string;
  ch_Schemes : list string;
  ch_Roles : list ChannelRole;
  ch_Country : string;
  ch_MatchPrefixes : list string;
  ch_Parent : option ChannelUUID
}.

(** The helpers of the test: [test.NewChannel] and [test.NewTelChannel]. *)
Definition NewChannel (uuid : ChannelUUID) (name address : string)
    (schemes : list string) (roles : list ChannelRole)
    (parent : option ChannelUUID) : Channel :=
  mkChannel uuid name address schemes roles EmptyString [] parent.

Definition NewTelChannel (uuid : ChannelUUID) (name address : string)
    (roles : list ChannelRole) (parent : option ChannelUUID)
    (country : string) (matchPrefixes : list string) : Channel :=
  mkChannel uuid name address ["tel"] roles country matchPrefixes parent.

(** Modelled from the spec: a channel has "a capability-role set" and
    "one or more addressing schemes"; the router is not among the
    sources. *)
Definition HasRole (ch : Channel) (role : ChannelRole) : bool :=
  bool_decide (role ∈ ch_Roles ch).

(** Modelled from the spec: rule 2 keeps the "channels whose scheme
    set contains the URN's scheme"; the router is not among the
    sources. *)
Definition SupportsScheme (ch : Channel) (scheme : string) : bool :=
  bool_decide (scheme ∈ ch_Schemes ch).

(** A URN of a contact, "optionally pinned to a preferred channel". *)
Record ContactURN : Type := NewContactURN {
  urn_URN : string;
  urn_Channel : option Channel
}.

(** A URN is [scheme:path]. *)
Fixpoint split_colon (s : string) : string * string :=
  match s with
  | EmptyString => (EmptyString, EmptyString)
  | String c rest =>
      if Ascii.eqb c ":" then (EmptyString, rest)
      else let '(scheme, path) := split_colon rest in (String c scheme, path)
  end.

Definition Scheme (urn : ContactURN) : string := fst (split_colon (urn_URN urn)).
Definition Path (urn : ContactURN) : string := snd (split_colon (urn_URN urn)).

(** [strings.TrimPrefix(s, "+")] *)
Definition trim_plus (s : string) : string :=
  match s with
  | String "+" rest => rest
  | _ => s
  end.

(** The number of a URN: its path without the leading plus. *)
Definition number_of (urn : ContactURN) : string := trim_plus (Path urn).

Definition is_digit (c : ascii) : bool :=
  let n := nat_of_ascii c in ((48 <=? n) && (n <=? 57))%nat.

(** Modelled from the spec: "the length of the longest common
    leading-digit run between the candidate's address and the URN's
    number"; the router is not among the sources. *)
Fixpoint common_digits (a b : string) : nat :=
  match a, b with
  | String x a', String y b' =>
      if Ascii.eqb x y && is_digit x then S (common_digits a' b') else 0
  | _, _ => 0
  end.

(** Modelled from the spec: the overlap of a candidate, on its address
    without the leading plus; the router is not among the sources. *)
Definition overlap (ch : Channel) (number : string) : nat :=
  common_digits (trim_plus (ch_Address ch)) number.

(** Modelled from the spec: "another channel declares a delegation
    relation to it"; the router is not among the sources. *)
Definition is_delegate_of (d ch : Channel) : bool :=
  match ch_Parent d with
  | Some parent =>
      String.eqb parent (ch_UUID ch) && negb (String.eqb (ch_UUID d) (ch_UUID ch))
  | None => false
  end.

(** Modelled from the spec: rule 6, "if another channel declares a
    delegation relation to it and that delegate channel has
    requiredRole, substitute the delegate"; the router is not among the
    sources.  Of several such delegates the first declared is taken. *)
Definition getDelegate (all : list Channel) (ch : Channel) (role : ChannelRole)
  : Channel :=
  match List.find (fun d => is_delegate_of d ch && HasRole d role) all with
  | Some d => d
  | None => ch
  end.

(** Modelled from the spec: rule 4, "among candidates that declare
    explicit matching number-prefixes, select the one whose prefix is a
    literal prefix of the URN's number; if multiple match, the longest
    matching prefix wins"; the router is not among the sources.  Among
    prefixes of one length the later declared channel is kept, as in
    rule 5. *)
Definition longest_prefix (ch : Channel) (number : string) : option nat :=
  fold_left
    (fun best p =>
       if String.prefix p number then
         match best with
         | Some n => Some (Nat.max n (String.length p))
         | None => Some (String.length p)
         end
       else best)
    (ch_MatchPrefixes ch) None.

(** Modelled from the spec: one candidate of rule 4 against the best
    so far; the router is not among the sources. *)
Definition prefix_step (number : string) (best : option (Channel * nat))
    (c : Channel) : option (Channel * nat) :=
  match longest_prefix c number with
  | None => best
  | Some n =>
      match best with
      | Some (b, m) => if (m <=? n)%nat then Some (c, n) else Some (b, m)
      | None => Some (c, n)
      end
  end.

(** Modelled from the spec: rule 4 over the candidates in declaration
    order; the router is not among the sources. *)
Definition best_prefix (number : string) (candidates : list Channel)
  : option Channel :=
  fst <$> fold_left (prefix_step number) candidates None.

(** Modelled from the spec: rule 5, "select the candidate with the
    greatest overlap; ties broken by most recently added candidate
    (declaration order, last wins)"; the router is not among the
    sources. *)
Definition overlap_step (number : string) (best : option Channel) (c : Channel)
  : option Channel :=
  match best with
  | Some b => if (overlap b number <=? overlap c number)%nat then Some c else Some b
  | None => Some c
  end.

(** Modelled from the spec: rule 5 over the candidates in declaration
    order; the router is not among the sources. *)
Definition best_overlap (number : string) (candidates : list Channel)
  : option Channel :=
  fold_left (overlap_step number) candidates None.

(** Modelled from the spec: rule 2, "restrict candidates to channels
    whose scheme set contains the URN's scheme"; the router is not among
    the sources. *)
Definition candidates_for (all : list Channel) (urn : ContactURN) : list Channel :=
  List.filter (fun ch => SupportsScheme ch (Scheme urn)) all.

(** Modelled from the spec: rules 2 to 5 on the candidates that the
    scheme filter leaves: none, the only one, the explicit prefix match,
    else the overlap match; the router is not among the sources. *)
Definition select (number : string) (candidates : list Channel) : option Channel :=
  match candidates with
  | [] => None
  | [c] => Some c
  | _ =>
      match best_prefix number candidates with
      | Some c => Some c
      | None => best_overlap number candidates
      end
  end.

(** Modelled from the spec: rule 1, "if the URN carries a
    previously-bound channel and that channel (or its delegate) has
    requiredRole, return it"; the router is not among the sources. *)
Definition pinned_affinity (all : list Channel) (urn : ContactURN)
    (role : ChannelRole) : option Channel :=
  match urn_Channel urn with
  | Some pinned =>
      let d := getDelegate all pinned role in
      if HasRole d role then Some d else None
  | None => None
  end.

(** Modelled from the spec: [ResolveChannel(urn, requiredRole)],
    "first matching rule wins", and "if no candidate survives step 2,
    or the final selection lacks requiredRole, the result is none"; the
    router is not among the sources. *)
Definition ResolveChannel (all : list Channel) (urn : ContactURN)
    (role : ChannelRole) : option Channel :=
  match pinned_affinity all urn role with
  | Some c => Some c
  | None =>
      match select (number_of urn) (candidates_for all urn) with
      | None => None
      | Some selected =>
          let final := getDelegate all selected role in
          if HasRole final role then Some final else None
      end
  end.

(** Modelled from the spec: the name the test calls [ResolveChannel]
    by; the router is not among the sources. *)
Definition GetForURN (all : list Channel) (urn : ContactURN) (role : ChannelRole)
  : option Channel :=
  ResolveChannel all urn role.

End Channels.

(** ** Concrete inputs used by the examples below *)
Module Fixtures.
Import GoSlice GoError Contacts Issues AssetServer.

(** A contact with no memberships, then the same group added twice. *)
Definition twice_added : Contact :=
  apply_ops zeroContact
    [OpAddGroup "2aad21f6-30b7-42c5-bd7f-1b720c154817" "Survey Audience";
     OpAddGroup "2aad21f6-30b7-42c5-bd7f-1b720c154817" "Survey Audience"].

Definition two_groups : Contact :=
  apply_ops zeroContact [OpAddGroup "g1" "Testers"; OpAddGroup "g2" "Males"].

(** References to groups and fields, checked against the UUIDs and keys
    a session knows. *)
Inductive AssetRef : Type :=
  | GroupRef (uuid name : string)
  | FieldRef (key name : string).

#[export] Instance AssetRef_Reference : Reference AssetRef := {
  Type_ r := match r with GroupRef _ _ => "group" | FieldRef _ _ => "field" end;
  Identity r := match r with GroupRef u _ => u | FieldRef k _ => k end
}.

Definition known_assets : Type := list string.

Definition check_known (ref : ExtractedReference AssetRef) (sa : known_assets) : bool :=
  bool_decide (Identity (ref_Reference ref) ∈ sa).

Definition sample_refs : list (ExtractedReference AssetRef) :=
  [ mkExtractedReference (mkNode "n1") (Some (mkAction "a1")) (GroupRef "g1" "Testers");
    mkExtractedReference (mkNode "n1") (Some (mkAction "a2")) (GroupRef "g9" "Gone");
    mkExtractedReference (mkNode "n2") None (FieldRef "age" "Age");
    mkExtractedReference (mkNode "n3") (Some (mkAction "a2")) (GroupRef "g9" "Gone") ].

(** An HTTP stack whose every request is well formed and whose server
    answers by URL. *)
Definition plain_NewRequest (method url : string) : error + Request :=
  inr (mkRequest method url ∅).

Definition json_header : Header := {[ "Content-Type" := ["application/json"] ]}.
Definition html_header : Header := {[ "Content-Type" := ["text/html"] ]}.

Definition sample_client : HTTPClient :=
  mkHTTPClient (fun req =>
    if String.eqb (req_URL req) "http://testserver/assets/group" then
      inr (mkResponse 200 json_header (Some [], None))
    else if String.eqb (req_URL req) "http://testserver/assets/label" then
      inr (mkResponse 200 html_header (Some [], None))
    else if String.eqb (req_URL req) "http://testserver/assets/flow" then
      inr (mkResponse 404 json_header (Some [], None))
    else inl (errors_New "dial tcp: connection refused")).

Definition sample_source : ServerSource :=
  mkServerSource "sesame" ∅ sample_client.

(** A call_classifier action as in the documentation of the action,
    and runs that evaluate its input to nothing or to a sentence. *)
Definition booking : Classify.ClassifierReference :=
  Classify.mkClassifierReference "1c06c884-39dd-4ce4-ad9f-9a01cbe6c000" "Booking".

Definition classify_intent : Classify.CallClassifierAction :=
  Classify.NewCallClassifier "8eebd020-1af5-431c-b943-aa670fc74da9" booking
    "@input.text" "Intent".

Definition show_reference (r : Classify.ClassifierReference) : string :=
  "classifier[uuid=" +:+ Classify.ref_UUID r +:+ ",name=" +:+ Classify.ref_Name r +:+ "]".

Definition show_classification (c : Classify.Classification) : string := "{}".

Definition no_service (c : Classify.Classifier) : error + Classify.ClassificationService :=
  inl (errors_New "no classification service available").

Definition run_without_input : Classify.FlowRun :=
  Classify.mkFlowRun ∅ (fun _ => (EmptyString, None)) no_service ∅.

Definition run_without_classifier : Classify.FlowRun :=
  Classify.mkFlowRun ∅ (fun _ => ("book a flight to Quito", None)) no_service ∅.

Definition first_step : Classify.Step := Classify.mkStep "a58be63b-907d-4a1a-856b-0bb5579d7507".

(** Decoders for the examples: a URN is a string, a group an object
    with a uuid and a name, the fields an empty object; keys fold as
    ASCII letters do. *)
Definition lower (c : ascii) : ascii :=
  let n := nat_of_ascii c in
  if ((65 <=? n) && (n <=? 90))%nat then ascii_of_nat (n + 32) else c.

Fixpoint ascii_fold (a b : string) : bool :=
  match a, b with
  | EmptyString, EmptyString => true
  | String x a', String y b' => Ascii.eqb (lower x) (lower y) && ascii_fold a' b'
  | _, _ => false
  end.

Definition urn_of_json (v : ContactJSON.JSON) : error + Contacts.URN :=
  match v with
  | ContactJSON.JString s => inr s
  | _ => inl (errors_New "urn must be a string")
  end.

Definition group_of_json (v : ContactJSON.JSON) : error + Contacts.Group :=
  match v with
  | ContactJSON.JObject [("uuid", ContactJSON.JString u); ("name", ContactJSON.JString n)] =>
      inr (mkGroup u n)
  | _ => inl (errors_New "group must have a uuid and a name")
  end.

Definition fields_of_json (v : ContactJSON.JSON) : error + Contacts.Fields :=
  match v with
  | ContactJSON.JObject [] => inr ∅
  | _ => inl (errors_New "fields must be an object")
  end.

(** [{"uuid": "...", "name": "Ben Haggerty", "URNS": null, "groups": null}] *)
Definition contact_without_lists : ContactJSON.JSON :=
  ContactJSON.JObject
    [ ("uuid", ContactJSON.JString "ba96bf7f-bc2a-4873-a7c7-254d1927c4e3");
      ("name", ContactJSON.JString "Ben Haggerty");
      ("URNS", ContactJSON.JNull);
      ("groups", ContactJSON.JNull) ].

(** The channels of [TestChannelSetGetForURN]. *)
Definition rolesSend : list Channels.ChannelRole := [Channels.ChannelRoleSend].
Definition rolesDefault : list Channels.ChannelRole :=
  [Channels.ChannelRoleSend; Channels.ChannelRoleReceive].

Definition claro : Channels.Channel :=
  Channels.NewTelChannel "c1" "Claro" "+593971111111" rolesDefault None "EC" [].
Definition mtn : Channels.Channel :=
  Channels.NewTelChannel "c2" "MTN" "+250782222222" rolesDefault None "RW" [].
Definition tigo : Channels.Channel :=
  Channels.NewTelChannel "c3" "Tigo" "+250723333333" rolesDefault None "RW" [].
Definition twitter : Channels.Channel :=
  Channels.NewChannel "c4" "Twitter" "nyaruka" ["twitter"; "twitterid"] rolesDefault None.
Definition android : Channels.Channel :=
  Channels.NewChannel "c5" "Android" "+250723333333" ["tel"] rolesDefault None.
Definition bulk : Channels.Channel :=
  Channels.NewChannel "c6" "Bulk Sender" "1234" ["tel"] rolesSend (Some "c5").
Definition short1 : Channels.Channel :=
  Channels.NewTelChannel "c7" "Shortcode 1" "1234" rolesSend None "RW" ["25078"; "25077"].
Definition short2 : Channels.Channel :=
  Channels.NewTelChannel "c8" "Shortcode 2" "1235" rolesSend None "RW" ["25072"].

Definition scenario_C : list Channels.Channel := [claro; mtn; tigo].

End Fixtures.

(** ** flows/contact.go: resolving keys and encoding *)
Module ContactAccess.
Import GoSlice GoError Contacts ContactJSON.

(** What [Resolve] hands back as an [interface{}]: the dynamic type
    with its value. *)
Inductive Resolved : Type :=
  | RString (s : string)
  | RContactUUID (u : ContactUUID)
  | RURNList (l : URNList)
  | RLanguage (l : Language)
  | RGroupList (l : GroupList)
  | RFields (f : option Fields)
  | RError (e : error).

Definition Resolve (c : Contact) (key : string) : Resolved :=
  if String.eqb key "name" then RString (name c)
  else if String.eqb key "uuid" then RContactUUID (uuid c)
  else if String.eqb key "urns" then RURNList (urns c)
  else if String.eqb key "language" then RLanguage (language c)
  else if String.eqb key "groups" then RGroupList (groups c)
  else if String.eqb key "fields" then RFields (fields c)
  else if String.eqb key "urn" then RURNList (urns c)
  else RError (Errorf ("No field '" +:+ key +:+ "' on contact")).

(** The keys [Resolve] knows. *)
Definition resolvable : list string :=
  ["name"; "uuid"; "urns"; "language"; "groups"; "fields"; "urn"].

(** Encoding the elements of a slice, first error first. *)
Fixpoint encode_items {A} (enc : A -> error + JSON) (l : list A)
  : error + list JSON :=
  match l with
  | [] => inr []
  | x :: rest =>
      match enc x with
      | inl err => inl err
      | inr j =>
          match encode_items enc rest with
          | inl err => inl err
          | inr js => inr (j :: js)
          end
      end
  end.

(** A nil slice is written as null, any other as an array. *)
Definition encode_slice {A} (enc : A -> error + JSON) (s : slice A) : error + JSON :=
  match s with
  | None => inr JNull
  | Some l =>
      match encode_items enc l with
      | inl err => inl err
      | inr js => inr (JArray js)
      end
  end.

Section Encode.
(** [encoding/json] writes a string with its invalid UTF-8 replaced. *)
Variable sanitize : string -> string.
(** The encoders of a URN, of a group and of the fields, which are not
    among the sources. *)
Variable marshalURN : URN -> error + JSON.
Variable marshalGroup : Group -> error + JSON.
Variable marshalFields : Fields -> error + JSON.

(** [MarshalJSON]: [json.Marshal] of the envelope filled from the
    contact; the fields member is left out when the pointer is nil. *)
Definition MarshalJSON (c : Contact) : error + JSON :=
  let ce := mkEnvelope (uuid c) (name c) (language c) (urns c) (groups c) (fields c) in
  match encode_slice marshalURN (ce_URNs ce) with
  | inl err => inl err
  | inr jurns =>
      match encode_slice marshalGroup (ce_Groups ce) with
      | inl err => inl err
      | inr jgroups =>
          let members :=
            [ ("uuid", JString (sanitize (ce_UUID ce)));
              ("name", JString (sanitize (ce_Name ce)));
              ("language", JString (sanitize (ce_Language ce)));
              ("urns", jurns);
              ("groups", jgroups) ] in
          match ce_Fields ce with
          | None => inr (JObject members)
          | Some fs =>
              match marshalFields fs with
              | inl err => inl err
              | inr jfields => inr (JObject (members ++ [("fields", jfields)]))
              end
          end
      end
  end.
End Encode.

(** A contact as [UnmarshalJSON] leaves it: no nil list, no nil fields. *)
Definition without_nil (c : Contact) : Contact :=
  mkContact (uuid c) (name c) (language c)
    (if is_nil (urns c) then make0 else urns c)
    (if is_nil (groups c) then make0 else groups c)
    (match fields c with
     | None => Some NewFields
     | Some fs => Some fs
     end).

End ContactAccess.

(** ** The server asset source: typed access and the mock *)
Module AssetAccess.
Import GoSlice GoError AssetServer.

Definition assetTypeChannel : AssetType := "channel".
Definition assetTypeField : AssetType := "field".
Definition assetTypeFlow : AssetType := "flow".
Definition assetTypeGroup : AssetType := "group".
Definition assetTypeLabel : AssetType := "label".
Definition assetTypeLocationHierarchy : AssetType := "location_hierarchy".
Definition assetTypeResthook : AssetType := "resthook".

(** A fetcher, [assetFetcher.fetchAsset]. *)
Definition assetFetcher : Type :=
  string -> AssetType -> slice Byte.byte * option error.

Section Typed.
(** The asset types of the [assets] package, which are not among the
    sources. *)
Context {Channel Group Label Location Resthook : Type}.

(** What the cache hands back as an [interface{}]: nil, a set of one
    of the types the source asserts, or a value of another type. *)
Inductive Asset : Type :=
  | NilAsset
  | ChannelSet (set : slice Channel)
  | GroupSet (set : slice Group)
  | LabelSet (set : slice Label)
  | ResthookSet (set : slice Resthook)
  | OtherAsset (typeName : string).

(** [AssetCache.getAsset], which is not among the sources: what the
    cache answers for a URL, a fetcher and an asset type. *)
Variable cache_getAsset : string -> assetFetcher -> AssetType -> Asset * option error.

(** [GetAsset]; [fetcher] is [s.fetcher]. *)
Definition GetAsset (s : ServerSource) (fetcher : assetFetcher)
    (itemType : AssetType) (itemUUID : string) : Asset * option error :=
  let '(url, err) := getAssetURL s itemType itemUUID in
  match err with
  | Some err => (NilAsset, Some err)
  | None => cache_getAsset url fetcher itemType
  end.

Definition wrong_type : error :=
  Errorf "asset cache contains asset with wrong type".

Definition Channels (s : ServerSource) (fetcher : assetFetcher)
  : slice Channel * option error :=
  let '(asset, err) := GetAsset s fetcher assetTypeChannel EmptyString in
  match err with
  | Some err => (nil_slice, Some err)
  | None =>
      match asset with
      | ChannelSet set => (set, None)
      | _ => (nil_slice, Some wrong_type)
      end
  end.

Definition Groups (s : ServerSource) (fetcher : assetFetcher)
  : slice Group * option error :=
  let '(asset, err) := GetAsset s fetcher assetTypeGroup EmptyString in
  match err with
  | Some err => (nil_slice, Some err)
  | None =>
      match asset with
      | GroupSet set => (set, None)
      | _ => (nil_slice, Some wrong_type)
      end
  end.

Definition Labels (s : ServerSource) (fetcher : assetFetcher)
  : slice Label * option error :=
  let '(asset, err) := GetAsset s fetcher assetTypeLabel EmptyString in
  match err with
  | Some err => (nil_slice, Some err)
  | None =>
      match asset with
      | LabelSet set => (set, None)
      | _ => (nil_slice, Some wrong_type)
      end
  end.

Definition Locations (s : ServerSource) : slice Location * option error :=
  (nil_slice, None).

Definition Resthooks (s : ServerSource) (fetcher : assetFetcher)
  : slice Resthook * option error :=
  let '(asset, err) := GetAsset s fetcher assetTypeResthook EmptyString in
  match err with
  | Some err => (nil_slice, Some err)
  | None =>
      match asset with
      | ResthookSet set => (set, None)
      | _ => (nil_slice, Some wrong_type)
      end
  end.
End Typed.

Definition HasLocations (s : ServerSource) : bool :=
  match typeURLs s !! "location_hierarchy" with
  | Some _ => true
  | None => false
  end.

(** [MockServerSource]: the type URLs of the embedded source, the
    configured responses and the requests seen so far. *)
Record MockServerSource : Type := mkMockServerSource {
  mock_typeURLs : gmap AssetType string;
  mockResponses : gmap string (slice Byte.byte);
  mockedRequests : list string
}.

Definition NewMockServerSource (typeURLs : gmap AssetType string) : MockServerSource :=
  mkMockServerSource typeURLs ∅ [].

Definition MockResponse (s : MockServerSource) (url : string)
    (response : slice Byte.byte) : MockServerSource :=
  mkMockServerSource (mock_typeURLs s) (<[url := response]> (mockResponses s))
    (mockedRequests s).

Definition MockedRequests (s : MockServerSource) : list string := mockedRequests s.

(** The bytes of [{"results":[]}]. *)
Definition empty_results : slice Byte.byte :=
  Some (list_byte_of_string
          ("{" +:+ String (ascii_of_nat 34) "results"
           +:+ String (ascii_of_nat 34) ":[]}")).

(** The mock's [fetchAsset]: the answer and the mock after the call. *)
Definition mock_fetchAsset (s : MockServerSource) (url : string) (itemType : AssetType)
  : (slice Byte.byte * option error) * MockServerSource :=
  let s := mkMockServerSource (mock_typeURLs s) (mockResponses s)
             (mockedRequests s ++ [url]) in
  match mockResponses s !! url with
  | None => ((empty_results, None), s)
  | Some assetBuf => ((assetBuf, None), s)
  end.

(** Fetching the URLs of a list one after the other: the answers in
    order and the mock at the end. *)
Fixpoint mock_fetch_all (s : MockServerSource) (urls : list (string * AssetType))
  : list (slice Byte.byte * option error) * MockServerSource :=
  match urls with
  | [] => ([], s)
  | (url, itemType) :: rest =>
      let '(answer, s') := mock_fetchAsset s url itemType in
      let '(answers, s'') := mock_fetch_all s' rest in
      (answer :: answers, s'')
  end.

End AssetAccess.

(** ** flows/actions/call_classifier.go: the declared results *)
Module ClassifyResults.
Import GoError Classify.

(** [flows.ResultInfo] as [flows.NewResultInfo] fills it; of the node
    its UUID is kept. *)
Record ResultInfo : Type := NewResultInfo {
  info_Name : string;
  info_Categories : list string;
  info_Node : NodeUUID
}.

(** [Results]; [include] is a callback into the caller's state. *)
Definition Results {S : Type} (a : CallClassifierAction) (node : NodeUUID)
    (include : ResultInfo -> S -> S) (s : S) : S :=
  if negb (String.eqb (act_ResultName a) EmptyString)
  then include (NewResultInfo (act_ResultName a) classificationCategories node) s
  else s.

(** The declared result infos, in order. *)
Definition declared (a : CallClassifierAction) (node : NodeUUID) : list ResultInfo :=
  Results a node (fun i acc => acc ++ [i]) [].

(** The classifier-called events an execution is due: one, if the
    input is not empty, the classifier is among the assets, its service
    is there and the call logs at least one HTTP call. *)
Definition calls_due (a : CallClassifierAction) (run : FlowRun) : list Event :=
  let input := fst (run_EvaluateTemplate run (act_Input a)) in
  if String.eqb input EmptyString then []
  else
    match run_Classifiers run !! ref_UUID (act_Classifier a) with
    | None => []
    | Some cl =>
        match run_Classification run cl with
        | inl _ => []
        | inr svc =>
            match snd (svc input) with
            | [] => []
            | logs => [EvClassifierCalled (Classifier_Reference cl) logs]
            end
        end
    end.

End ClassifyResults.

(** ** flows/engine: the session assets *)
Module Engine.
Import GoSlice GoError.

Section Assets.
(** The asset types and the typed collections built from them, which
    are not among the sources. *)
Context {Channel Field Group Label Location Resthook : Type}.
Context {ChannelAssets FieldAssets FlowAssets GroupAssets : Type}.
Context {LabelAssets LocationAssets ResthookAssets : Type}.
(** What a source reads and writes when it is asked: a cache, a
    server, a log of requests. *)
Context {World : Type}.

(** [assets.AssetSource]: each loader answers in a world and leaves a
    world. *)
Record AssetSource : Type := mkAssetSource {
  src_Channels : World -> (slice Channel * option error) * World;
  src_Fields : World -> (slice Field * option error) * World;
  src_Groups : World -> (slice Group * option error) * World;
  src_Labels : World -> (slice Label * option error) * World;
  src_Locations : World -> (slice Location * option error) * World;
  src_Resthooks : World -> (slice Resthook * option error) * World;
  src_HasLocations : World -> bool
}.

Variable NewChannelAssets : slice Channel -> ChannelAssets.
Variable NewFieldAssets : slice Field -> FieldAssets.
Variable NewFlowAssets : AssetSource -> FlowAssets.
Variable NewGroupAssets : slice Group -> GroupAssets.
Variable NewLabelAssets : slice Label -> LabelAssets.
Variable NewLocationAssets : slice Location -> LocationAssets.
Variable NewResthookAssets : slice Resthook -> ResthookAssets.

Record sessionAssets : Type := mkSessionAssets {
  source : AssetSource;
  channels : ChannelAssets;
  fields : FieldAssets;
  flows : FlowAssets;
  groups : GroupAssets;
  labels : LabelAssets;
  locations : LocationAssets;
  resthooks : ResthookAssets
}.

(** [NewSessionAssets]: the assets (nil on error), the error and the
    world the loaders leave. *)
Definition NewSessionAssets (src : AssetSource) (w : World)
  : (option sessionAssets * option error) * World :=
  let '((channels, err), w) := src_Channels src w in
  match err with
  | Some err => ((None, Some err), w)
  | None =>
  let '((fields, err), w) := src_Fields src w in
  match err with
  | Some err => ((None, Some err), w)
  | None =>
  let '((groups, err), w) := src_Groups src w in
  match err with
  | Some err => ((None, Some err), w)
  | None =>
  let '((labels, err), w) := src_Labels src w in
  match err with
  | Some err => ((None, Some err), w)
  | None =>
  let '((locations, err), w) := src_Locations src w in
  match err with
  | Some err => ((None, Some err), w)
  | None =>
  let '((resthooks, err), w) := src_Resthooks src w in
  match err with
  | Some err => ((None, Some err), w)
  | None =>
      ((Some (mkSessionAssets src
                (NewChannelAssets channels) (NewFieldAssets fields)
                (NewFlowAssets src) (NewGroupAssets groups)
                (NewLabelAssets labels) (NewLocationAssets locations)
                (NewResthookAssets resthooks)),
        None), w)
  end end end end end end.

Definition HasLocations (sa : sessionAssets) (w : World) : bool :=
  src_HasLocations (source sa) w.

(** A loader seen only by its error and the world it leaves. *)
Definition outcome_of {A} (load : World -> (slice A * option error) * World)
  : World -> option error * World :=
  fun w => let '((_, err), w') := load w in (err, w').

(** Running loaders one after the other up to the first error. *)
Fixpoint until_error (loads : list (World -> option error * World)) (w : World)
  : option error * World :=
  match loads with
  | [] => (None, w)
  | load :: rest =>
      match load w with
      | (Some err, w') => (Some err, w')
      | (None, w') => until_error rest w'
      end
  end.

(** The loaders of a source in the order [NewSessionAssets] asks them. *)
Definition loaders (src : AssetSource) : list (World -> option error * World) :=
  [ outcome_of (src_Channels src); outcome_of (src_Fields src);
    outcome_of (src_Groups src); outcome_of (src_Labels src);
    outcome_of (src_Locations src); outcome_of (src_Resthooks src) ].
End Assets.

End Engine.

(** ** The airtime transfer action *)
Module Airtime.
Import GoSlice GoError.

(** [decimal.Decimal]: a coefficient and an exponent of ten. *)
Record Decimal : Type := mkDecimal { coefficient : Z; exponent : Z }.

Definition decimal_Zero : Decimal := mkDecimal 0 1.
(** [decimal.RequireFromString("1")] *)
Definition decimal_one : Decimal := mkDecimal 1 0.

Record transferToConfig : Type := mkConfig {
  APIToken : string;
  Account : string;
  Currency : string;
  Disabled : bool
}.

Record CountryConfig : Type := mkCountryConfig {
  cc_Name : string;
  cc_CurrencyName : string;
  cc_CurrencyCode : string;
  cc_Amount : Decimal
}.

Definition TypeTransferAirtime : string := "transfer_airtime".

(** [Countries] maps a country code to a pointer, which may be nil. *)
Record TransferAirtimeAction : Type := mkTransferAirtime {
  Countries : gmap string (option CountryConfig)
}.

(** What is added to the event log.  The two airtime events are built
    by constructors that are not among the sources. *)
Inductive Event : Type :=
  | NewFatalErrorEvent (text : string)
  | NewErrorEvent (text : string)
  | NewAirtimeTransferredEvent (currency : string) (amount : Decimal)
  | NewFailedAirtimeTransferredEvent.

(** Of the answer of the TransferTo service the action reads the
    country. *)
Record MSISDNInfo : Type := mkMSISDNInfo { info_Country : string }.

(** What the action reaches through the run: the URNs of the contact,
    if there is a contact, and the transferto extension of the
    environment, if there is one. *)
Record FlowRun : Type := mkFlowRun {
  run_Contact : option (list string);
  run_Extension : option string
}.

(** [URNList.WithScheme], which is not among the sources: the URNs of
    a scheme, in their order. *)
Definition WithScheme (urns : list string) (scheme : string) : list string :=
  List.filter (fun u => String.eqb (fst (Channels.split_colon u)) scheme) urns.

Definition Path (urn : string) : string := snd (Channels.split_colon urn).

Section Action.
(** [json.Unmarshal] of the configuration. *)
Variable read_config : string -> error + transferToConfig.
(** [TransferToClient.MSISDNInfo] of a client with an account and a
    token, for a recipient, a currency and a value. *)
Variable client_MSISDNInfo :
  string -> string -> string -> string -> string -> error + MSISDNInfo.
Variable CountryCodeFromName : string -> string.

(** [attemptTransfer] *)
Definition attemptTransfer (config : transferToConfig)
    (countryConfigs : gmap string (option CountryConfig)) (recipient : string)
  : Decimal * option error :=
  match client_MSISDNInfo (Account config) (APIToken config) recipient
          (Currency config) "1" with
  | inl err => (decimal_Zero, Some err)
  | inr info =>
      let countryCode := CountryCodeFromName (info_Country info) in
      match countryConfigs !! countryCode with
      | Some (Some countryConfig) => (decimal_Zero, None)
      | _ =>
          (decimal_Zero,
           Some (Errorf ("no configured for transfers to " +:+ info_Country info
                         +:+ " (" +:+ countryCode +:+ ")")))
      end
  end.

(** [Execute]: the events added to the log, in order, and the error. *)
Definition Execute (a : TransferAirtimeAction) (run : FlowRun)
  : list Event * option error :=
  match run_Contact run with
  | None =>
      ([NewFatalErrorEvent "can't execute action in session without a contact"], None)
  | Some urns =>
      match run_Extension run with
      | None =>
          ([NewErrorEvent "missing transferto configuration";
            NewFailedAirtimeTransferredEvent], None)
      | Some rawConfig =>
          match read_config rawConfig with
          | inl err => ([], Some (Errorf ("unable to read config: " +:+ Error err)))
          | inr config =>
              if Disabled config then
                ([NewAirtimeTransferredEvent (Currency config) decimal_one], None)
              else
                match WithScheme urns "tel" with
                | [] =>
                    ([NewErrorEvent
                        "can't transfer airtime to contact without a tel URN";
                      NewFailedAirtimeTransferredEvent], None)
                | telURN :: _ =>
                    let '(amount, err) :=
                      attemptTransfer config (Countries a) (Path telURN) in
                    match err with
                    | Some err =>
                        ([NewErrorEvent (Error err);
                          NewFailedAirtimeTransferredEvent], None)
                    | None =>
                        ([NewAirtimeTransferredEvent (Currency config) amount], None)
                    end
                end
          end
      end
  end.
End Action.

(** An event about the transfer itself. *)
Definition is_airtime_event (e : Event) : bool :=
  match e with
  | NewAirtimeTransferredEvent _ _ | NewFailedAirtimeTransferredEvent => true
  | _ => false
  end.

End Airtime.

(** ** More inputs for the examples *)
Module Samples.
Import GoSlice GoError Contacts ContactJSON ContactAccess Fixtures.

(** Encoders that go with the decoders of [Fixtures]. *)
Definition urn_to_json (u : URN) : error + JSON := inr (JString u).

Definition group_to_json (g : Group) : error + JSON :=
  inr (JObject [("uuid", JString (group_uuid g)); ("name", JString (group_name g))]).

Definition fields_to_json (fs : Fields) : error + JSON :=
  if decide (fs = ∅) then inr (JObject [])
  else inl (errors_New "only empty fields are written").

Definition as_is (s : string) : string := s.

(** A contact with a URN, two groups and nil fields. *)
Definition ann : Contact :=
  mkContact "ba96bf7f-bc2a-4873-a7c7-254d1927c4e3" "Ann" "eng"
    (Some ["tel:+250781234567"])
    (Some [mkGroup "g1" "Testers"; mkGroup "g2" "Males"]) None.

(** A mock source with one configured response. *)
Definition group_url : string := "http://testserver/assets/group".
Definition flow_url : string := "http://testserver/assets/flow".

Definition mocked_groups : AssetAccess.MockServerSource :=
  AssetAccess.MockResponse
    (AssetAccess.NewMockServerSource {[ "group" := group_url ]})
    group_url (Some (list_byte_of_string "[]")).

(** A source that knows where its groups and flows are, and a cache
    that holds the groups. *)
Definition group_source : AssetServer.ServerSource :=
  AssetServer.mkServerSource "sesame"
    {[ "group" := group_url; "flow" := flow_url ]} sample_client.

(** A source whose labels are said to be where the groups are, and
    one whose resthooks are where nothing is cached. *)
Definition labelled_source : AssetServer.ServerSource :=
  AssetServer.mkServerSource "sesame" {[ "label" := group_url ]} sample_client.

Definition hooked_source : AssetServer.ServerSource :=
  AssetServer.mkServerSource "sesame" {[ "resthook" := flow_url ]} sample_client.

Definition no_fetcher : AssetAccess.assetFetcher :=
  fun _ _ => (nil_slice, Some (errors_New "no fetcher")).

Definition group_cache (url : string) (fetcher : AssetAccess.assetFetcher)
    (itemType : AssetServer.AssetType)
  : @AssetAccess.Asset string string string string * option error :=
  if String.eqb url group_url
  then (AssetAccess.GroupSet (Some ["Testers"; "Males"]), None)
  else (AssetAccess.NilAsset, Some (errors_New "not cached")).

(** A run with the classifier of the action and a service that
    answers with two intents after one HTTP call, and one whose service
    fails after a call. *)
Definition booking_classifier : Classify.Classifier :=
  Classify.mkClassifier "1c06c884-39dd-4ce4-ad9f-9a01cbe6c000" "Booking".

Definition one_call : list Classify.HTTPLog :=
  [Classify.mkHTTPLog "https://api.wit.ai/message" 200].

Definition two_intents : Classify.Classification :=
  Classify.mkClassification
    [Classify.mkIntent "book_flight"; Classify.mkIntent "book_hotel"].

Definition answering (c : Classify.Classifier)
  : error + Classify.ClassificationService :=
  inr (fun _ => (Some two_intents, None, one_call)).

Definition failing_call (c : Classify.Classifier)
  : error + Classify.ClassificationService :=
  inr (fun _ => (Some two_intents, Some (errors_New "wit.ai returned 502"), one_call)).

Definition run_with_classifier : Classify.FlowRun :=
  Classify.mkFlowRun
    {[ "1c06c884-39dd-4ce4-ad9f-9a01cbe6c000" := booking_classifier ]}
    (fun _ => ("book a flight to Quito", None)) answering ∅.

Definition empty_answer (c : Classify.Classifier)
  : error + Classify.ClassificationService :=
  inr (fun _ => (None, None, one_call)).

Definition run_with_empty_answer : Classify.FlowRun :=
  Classify.mkFlowRun
    {[ "1c06c884-39dd-4ce4-ad9f-9a01cbe6c000" := booking_classifier ]}
    (fun _ => ("book a flight to Quito", None)) empty_answer ∅.

Definition run_with_failing_call : Classify.FlowRun :=
  Classify.mkFlowRun
    {[ "1c06c884-39dd-4ce4-ad9f-9a01cbe6c000" := booking_classifier ]}
    (fun _ => ("book a flight to Quito", None)) failing_call ∅.

(** The parts of an outcome. *)
Definition run_of (o : Classify.Outcome) (otherwise : Classify.FlowRun)
  : Classify.FlowRun :=
  match o with
  | Classify.Returned run _ _ => run
  | Classify.Panicked _ => otherwise
  end.

Definition events_of (o : Classify.Outcome) : list Classify.Event :=
  match o with
  | Classify.Returned _ events _ => events
  | Classify.Panicked events => events
  end.

Definition classified : Classify.Outcome :=
  Classify.Execute show_reference show_classification classify_intent
    run_with_classifier first_step.

(** A source that logs which loader was asked and whose groups fail. *)
Definition loader_ok (name : string) (w : list string)
  : (GoSlice.slice string * option error) * list string :=
  ((Some [name], None), w ++ [name]).

Definition loader_failing (name : string) (w : list string)
  : (GoSlice.slice string * option error) * list string :=
  ((nil_slice, Some (errors_New (name +:+ " unavailable"))), w ++ [name]).

Definition logging_source : @Engine.AssetSource string string string string string string (list string) :=
  Engine.mkAssetSource (loader_ok "channels") (loader_ok "fields")
    (loader_failing "groups") (loader_ok "labels") (loader_ok "locations")
    (loader_ok "resthooks") (fun _ => false).

Definition count_of (set : GoSlice.slice string) : nat := length (elems set).

(** A TransferTo account, a lookup that places every number in Rwanda
    and an action configured for Rwanda. *)
Definition transfer_config : Airtime.transferToConfig :=
  Airtime.mkConfig "token" "nyaruka" "RWF" false.

Definition read_sample_config (raw : string) : error + Airtime.transferToConfig :=
  if String.eqb raw "{}" then inr transfer_config
  else if String.eqb raw "disabled"
  then inr (Airtime.mkConfig "token" "nyaruka" "RWF" true)
  else inl (errors_New "unexpected end of JSON input").

Definition in_rwanda (account token recipient currency value : string)
  : error + Airtime.MSISDNInfo :=
  inr (Airtime.mkMSISDNInfo "Rwanda").

Definition code_of (country : string) : string :=
  if String.eqb country "Rwanda" then "RW" else EmptyString.

Definition to_rwanda : Airtime.TransferAirtimeAction :=
  Airtime.mkTransferAirtime
    {[ "RW" := Some (Airtime.mkCountryConfig "Rwanda" "Franc" "RWF"
                       (Airtime.mkDecimal 500 0)) ]}.

Definition rwandan_run : Airtime.FlowRun :=
  Airtime.mkFlowRun (Some ["twitter:nyaruka"; "tel:+250781234567"]) (Some "{}").

End Samples.

(** * Theorems *)

(** Closed decidable goals are settled by evaluation. *)
Ltac decide_closed := apply (bool_decide_unpack _); vm_compute; exact I.

(** ** Contacts: group membership *)
Module ContactFacts.
Import GoSlice Contacts Fixtures.

Lemma first_index_None (u : GroupUUID) (l : list Group) :
  first_index u l = None <-> u ∉ (group_uuid <$> l).
Proof.
  induction l as [|g rest IH]; simpl.
  - split; [intros _; apply not_elem_of_nil | reflexivity].
  - rewrite not_elem_of_cons.
    destruct (String.eqb_spec (group_uuid g) u) as [Heq|Hne].
    + split; [discriminate | intros [Hn _]; congruence].
    + destruct (first_index u rest) as [i|].
      * split; [discriminate | intros [_ Hn]; apply IH in Hn; discriminate].
      * split; [intros _; split; [congruence | by apply IH] | reflexivity].
Qed.

(** Where the loop stops, the list splits around the first membership
    with the given UUID. *)
Lemma first_index_Some (u : GroupUUID) (l : list Group) (i : nat) :
  first_index u l = Some i ->
  exists l1 g l2,
    l = l1 ++ g :: l2 /\ length l1 = i /\ group_uuid g = u /\
    u ∉ (group_uuid <$> l1).
Proof.
  revert i; induction l as [|g rest IH]; simpl; intros i Hi; [discriminate|].
  destruct (String.eqb_spec (group_uuid g) u) as [Heq|Hne].
  - injection Hi as <-. exists [], g, rest. repeat split; auto.
    apply not_elem_of_nil.
  - destruct (first_index u rest) as [j|] eqn:Hj; [|discriminate].
    injection Hi as <-.
    destruct (IH j eq_refl) as (l1 & g' & l2 & -> & Hlen & Hg & Hn).
    exists (g :: l1), g', l2. repeat split; simpl; auto.
    rewrite not_elem_of_cons; split; [congruence | assumption].
Qed.

Lemma cut_split {A} (l1 l2 : list A) (x : A) :
  cut (Some (l1 ++ x :: l2)) (length l1) = Some (l1 ++ l2).
Proof.
  unfold cut; simpl. f_equal.
  rewrite take_app_length.
  replace (S (length l1)) with (length (l1 ++ [x])) by (rewrite length_app; simpl; lia).
  by rewrite (cons_middle x l1 l2), app_assoc, drop_app_length.
Qed.

Lemma group_uuids_AddGroup (c : Contact) (u : GroupUUID) (n : string) :
  group_uuids (AddGroup c u n) = group_uuids c ++ [u].
Proof. unfold group_uuids; simpl. by rewrite fmap_app. Qed.

Lemma unique_AddGroup (c : Contact) (u : GroupUUID) (n : string) :
  unique_groups (AddGroup c u n) <-> unique_groups c /\ u ∉ group_uuids c.
Proof.
  unfold unique_groups. rewrite group_uuids_AddGroup, NoDup_app.
  split.
  - intros (Hc & Hx & _). split; [assumption|].
    intros Hin. apply (Hx u Hin). apply list_elem_of_singleton. reflexivity.
  - intros [Hc Hn]. repeat split; [assumption | | apply NoDup_singleton].
    intros x Hx Hx'. apply list_elem_of_singleton in Hx'. congruence.
Qed.

Lemma RemoveGroup_found (c : Contact) (u : GroupUUID) :
  u ∈ group_uuids c ->
  exists l1 g l2,
    elems (groups c) = l1 ++ g :: l2 /\ group_uuid g = u /\
    (u ∉ group_uuid <$> l1) /\
    RemoveGroup c u = (set_groups c (Some (l1 ++ l2)), true).
Proof.
  intros Hin. unfold RemoveGroup.
  destruct (first_index u (elems (groups c))) as [i|] eqn:Hi.
  - destruct (first_index_Some _ _ _ Hi) as (l1 & g & l2 & Hl & Hlen & Hg & Hn).
    exists l1, g, l2. repeat split; auto.
    f_equal. f_equal. subst i.
    destruct (groups c) as [l|]; simpl in *.
    + subst l. apply cut_split.
    + by destruct l1.
  - apply first_index_None in Hi. contradiction.
Qed.

Lemma RemoveGroup_missing (c : Contact) (u : GroupUUID) :
  u ∉ group_uuids c -> RemoveGroup c u = (c, false).
Proof.
  intros Hn. unfold RemoveGroup.
  apply first_index_None in Hn. unfold group_uuids in *. by rewrite Hn.
Qed.

Lemma unique_RemoveGroup (c : Contact) (u : GroupUUID) :
  unique_groups c -> unique_groups (fst (RemoveGroup c u)).
Proof.
  intros Hu.
  destruct (decide (u ∈ group_uuids c)) as [Hin|Hn].
  - destruct (RemoveGroup_found c u Hin) as (l1 & g & l2 & Hl & _ & _ & ->).
    unfold unique_groups, group_uuids in *; simpl.
    rewrite Hl in Hu. rewrite fmap_app in *. rewrite fmap_cons in Hu.
    apply NoDup_app in Hu as (H1 & H12 & H2).
    apply NoDup_cons in H2 as [_ H2].
    apply NoDup_app. repeat split; auto.
    intros x Hx Hx'. apply (H12 x Hx). by right.
  - by rewrite RemoveGroup_missing.
Qed.

Lemma unique_apply_ops (c : Contact) (ops : list ContactOp) :
  unique_groups c -> adds_fresh c ops -> unique_groups (apply_ops c ops).
Proof.
  revert c; induction ops as [|op rest IH]; intros c Hu Hf; [exact Hu|].
  destruct Hf as [Hop Hrest].
  unfold apply_ops; simpl. apply IH; [|exact Hrest].
  destruct op as [lang|n|u n|u]; simpl.
  - exact Hu.
  - exact Hu.
  - apply unique_AddGroup. by split.
  - by apply unique_RemoveGroup.
Qed.

(** C8, as stated, fails: [AddGroup] appends without looking, so adding
    one group twice to an empty contact leaves two memberships with the
    same UUID. *)
Lemma AddGroup_twice_duplicates :
  unique_groups zeroContact /\ ~ unique_groups twice_added.
Proof.
  split.
  - apply NoDup_nil_2.
  - unfold unique_groups; vm_compute. intros Hd.
    apply NoDup_cons in Hd as [Hn _]. apply Hn. by left.
Qed.

(** C8 (amended): [AddGroup] appends unconditionally, so the group list
    is unique by UUID after [AddGroup] exactly when it was unique before
    and the UUID was not yet a member; every sequence of contact
    operations whose [AddGroup]s name UUIDs that are not members at that
    moment keeps the list unique by UUID. *)
Theorem groups_unique_when_adds_fresh :
  (forall (c : Contact) (u : GroupUUID) (n : string),
      unique_groups (AddGroup c u n) <-> unique_groups c /\ u ∉ group_uuids c) /\
  (forall (c : Contact) (ops : list ContactOp),
      unique_groups c -> adds_fresh c ops -> unique_groups (apply_ops c ops)).
Proof. split; [exact unique_AddGroup | exact unique_apply_ops]. Qed.

Lemma groups_unique_when_adds_fresh_witness :
  unique_groups
    (apply_ops zeroContact
       [OpAddGroup "g1" "Testers"; OpSetName "Ann"; OpAddGroup "g2" "Males";
        OpRemoveGroup "g1"; OpAddGroup "g1" "Testers"]).
Proof.
  apply (proj2 groups_unique_when_adds_fresh).
  - apply NoDup_nil_2.
  - cbn. repeat split; decide_closed.
Defined.

(** C9: removing a group the contact is not a member of returns false
    and leaves the whole contact as it was; removing a member returns
    true and takes out that membership (the first one carrying the UUID),
    every other membership and all other contact state staying in place.
    When memberships are unique the UUID is gone afterwards. *)
Theorem RemoveGroup_not_found_or_removed (c : Contact) (u : GroupUUID) :
  (u ∉ group_uuids c -> RemoveGroup c u = (c, false)) /\
  (u ∈ group_uuids c ->
     exists l1 g l2,
       elems (groups c) = l1 ++ g :: l2 /\ group_uuid g = u /\
       (u ∉ group_uuid <$> l1) /\
       RemoveGroup c u = (set_groups c (Some (l1 ++ l2)), true)) /\
  (u ∈ group_uuids c -> unique_groups c ->
     u ∉ group_uuids (fst (RemoveGroup c u))).
Proof.
  split; [apply RemoveGroup_missing|]. split; [apply RemoveGroup_found|].
  intros Hin Hu.
  destruct (RemoveGroup_found c u Hin) as (l1 & g & l2 & Hl & Hg & Hn & ->).
  unfold unique_groups, group_uuids in *; simpl. rewrite Hl in Hu.
  rewrite fmap_app, fmap_cons, Hg in Hu.
  apply NoDup_app in Hu as (_ & H12 & H2). apply NoDup_cons in H2 as [Hn2 _].
  rewrite fmap_app, elem_of_app. intros [H|H]; contradiction.
Qed.

Lemma RemoveGroup_not_found_or_removed_witness :
  RemoveGroup two_groups "g3" = (two_groups, false) /\
  "g1" ∉ group_uuids (fst (RemoveGroup two_groups "g1")).
Proof.
  split.
  - apply (proj1 (RemoveGroup_not_found_or_removed two_groups "g3")).
    decide_closed.
  - apply (proj2 (proj2 (RemoveGroup_not_found_or_removed two_groups "g1"))).
    + decide_closed.
    + unfold unique_groups. decide_closed.
Defined.

End ContactFacts.

(** ** The missing dependency check *)
Module IssueFacts.
Import Issues Fixtures.

Section Check.
Context {R : Type} `{Reference R} {SessionAssets Flow : Type}.
Variable Check : ExtractedReference R -> SessionAssets -> bool.

(** The issue a failing reference is reported with. *)
Let issue_of (ref : ExtractedReference R) : MissingDependency R :=
  newMissingDependency (node_UUID (ref_Node ref)) (actionUUID_of ref)
    (ref_Reference ref).

Local Abbreviation failing sa := (fun ref : ExtractedReference R => Check ref sa = false).

Lemma collect_from (sa : SessionAssets) (refs : list (ExtractedReference R))
    (acc : list (MissingDependency R)) :
  fold_left (check_one Check sa (fun i a => a ++ [i])) refs acc =
  acc ++ (issue_of <$> filter (failing sa) refs).
Proof.
  revert acc; induction refs as [|ref rest IH]; intros acc; simpl.
  - by rewrite app_nil_r.
  - rewrite IH. unfold check_one. rewrite filter_cons.
    destruct (Check ref sa) eqn:Hc; simpl; [reflexivity|].
    by rewrite <- app_assoc.
Qed.

Lemma reported_filter (sa : SessionAssets) (flow : Flow)
    (refs : list (ExtractedReference R)) :
  reported Check sa flow refs = issue_of <$> filter (failing sa) refs.
Proof. unfold reported, MissingDependencyCheck. by rewrite collect_from. Qed.

Lemma check_through_report {S : Type} (sa : SessionAssets)
    (report : MissingDependency R -> S -> S)
    (refs : list (ExtractedReference R)) (s : S) :
  fold_left (check_one Check sa report) refs s =
  fold_left (fun s i => report i s) (issue_of <$> filter (failing sa) refs) s.
Proof.
  revert s; induction refs as [|ref rest IH]; intros s; simpl; [reflexivity|].
  rewrite IH. unfold check_one. rewrite filter_cons.
  by destruct (Check ref sa) eqn:Hc.
Qed.

Lemma check_all_pass {S : Type} (sa : SessionAssets)
    (report : MissingDependency R -> S -> S)
    (refs : list (ExtractedReference R)) (s : S) :
  (forall ref, ref ∈ refs -> Check ref sa = true) ->
  fold_left (check_one Check sa report) refs s = s.
Proof.
  induction refs as [|ref rest IH]; intros Hall; simpl; [reflexivity|].
  unfold check_one at 2. rewrite (Hall ref) by (by left). simpl.
  apply IH. intros r Hr. apply Hall. by right.
Qed.

(** C7: the check reports, in the order of the reference list, exactly
    one [missing_dependency] issue for each entry whose [Check] fails
    and none for an entry whose [Check] succeeds; each issue carries the
    reference with its asset type and identity, the node UUID and the
    action UUID (the zero UUID when the reference has no action); the
    only effect of the check on the caller's state is those calls of
    [report], so nothing changes when every [Check] succeeds. *)
Theorem MissingDependencyCheck_one_issue_per_failing_reference
    (sa : SessionAssets) (flow : Flow) (refs : list (ExtractedReference R)) :
  reported Check sa flow refs =
    (fun ref =>
       mkMissingDependency
         (newBaseIssue "missing_dependency" (node_UUID (ref_Node ref))
            (match ref_Action ref with
             | Some a => action_UUID a
             | None => EmptyString
             end)
            ("missing " +:+ Type_ (ref_Reference ref) +:+ " dependency '"
             +:+ Identity (ref_Reference ref) +:+ "'"))
         (mkTypedReference (ref_Reference ref) (Type_ (ref_Reference ref))))
    <$> filter (fun ref => Check ref sa = false) refs
  /\ length (reported Check sa flow refs) =
     length (filter (fun ref => Check ref sa = false) refs)
  /\ (forall (S : Type) (report : MissingDependency R -> S -> S) (s : S),
        MissingDependencyCheck Check sa flow refs report s =
        fold_left (fun s i => report i s) (reported Check sa flow refs) s)
  /\ (forall (S : Type) (report : MissingDependency R -> S -> S) (s : S),
        (forall ref, ref ∈ refs -> Check ref sa = true) ->
        MissingDependencyCheck Check sa flow refs report s = s).
Proof.
  split; [apply reported_filter|].
  split; [by rewrite reported_filter, length_fmap|].
  split.
  - intros S report s. rewrite reported_filter. apply check_through_report.
  - intros S report s Hall. by apply check_all_pass.
Qed.
End Check.

Lemma MissingDependencyCheck_one_issue_per_failing_reference_witness :
  (fun i => (issue_NodeUUID (base i), issue_ActionUUID (base i),
             typed_Type (Dependency i), issue_Description (base i)))
    <$> reported check_known ["g1"] tt sample_refs =
    [ ("n1", "a2", "group", "missing group dependency 'g9'");
      ("n2", EmptyString, "field", "missing field dependency 'age'");
      ("n3", "a2", "group", "missing group dependency 'g9'") ]
  /\ MissingDependencyCheck check_known ["g1"; "g9"; "age"] tt sample_refs
       (fun _ n => S n) 0 = 0.
Proof.
  pose proof (MissingDependencyCheck_one_issue_per_failing_reference
                check_known ["g1"] tt sample_refs) as (Hrep & _).
  pose proof (MissingDependencyCheck_one_issue_per_failing_reference
                check_known ["g1"; "g9"; "age"] tt sample_refs) as (_ & _ & _ & Hpass).
  split.
  - rewrite Hrep. reflexivity.
  - apply Hpass. apply Forall_forall. decide_closed.
Defined.

End IssueFacts.

(** ** The server asset source *)
Module AssetServerFacts.
Import GoSlice GoError AssetServer Fixtures.

Section Fetch.
Variable http_NewRequest : string -> string -> error + Request.
Variables (s : ServerSource) (url : string) (itemType : AssetType).

Lemma fetchAsset_bad_request (e : error) :
  http_NewRequest "GET" url = inl e ->
  fetchAsset http_NewRequest s url itemType = (nil_slice, Some e).
Proof. intros Hreq. unfold fetchAsset. by rewrite Hreq. Qed.

Lemma fetchAsset_accepts (request : Request) (response : Response) :
  http_NewRequest "GET" url = inr request ->
  Do (httpClient s) (set_Authorization s request) = inr response ->
  StatusCode response = 200%Z ->
  Header_Get (resp_Header response) "Content-Type" = "application/json" ->
  fetchAsset http_NewRequest s url itemType = resp_Body response.
Proof.
  intros Hreq Hdo Hst Hct. unfold fetchAsset. rewrite Hreq.
  simpl. rewrite Hdo, Hst, Hct. reflexivity.
Qed.

(** C6: when the client fails, its error comes back as it is; a response
    whose status is not 200 gives the error naming that status; a
    response whose content type is not application/json gives an error
    (the non-JSON one when the status is 200); each time the payload is
    nil. *)
Theorem fetchAsset_rejects (request : Request) :
  http_NewRequest "GET" url = inr request ->
  (forall e : error,
      Do (httpClient s) (set_Authorization s request) = inl e ->
      fetchAsset http_NewRequest s url itemType = (nil_slice, Some e)) /\
  (forall response : Response,
      Do (httpClient s) (set_Authorization s request) = inr response ->
      StatusCode response <> 200%Z ->
      fetchAsset http_NewRequest s url itemType =
      (nil_slice,
       Some (Errorf ("request returned non-200 response ("
                     +:+ fmt_d (StatusCode response) +:+ ")")))) /\
  (forall response : Response,
      Do (httpClient s) (set_Authorization s request) = inr response ->
      Header_Get (resp_Header response) "Content-Type" <> "application/json" ->
      exists err : error,
        fetchAsset http_NewRequest s url itemType = (nil_slice, Some err) /\
        (StatusCode response = 200%Z ->
         err = Errorf "request returned non-JSON response")).
Proof.
  intros Hreq. unfold fetchAsset. rewrite Hreq. simpl.
  split; [|split].
  - intros e Hdo. by rewrite Hdo.
  - intros response Hdo Hst. rewrite Hdo.
    destruct (Z.eqb_spec (StatusCode response) 200) as [Heq|_]; [contradiction|].
    reflexivity.
  - intros response Hdo Hct. rewrite Hdo.
    destruct (Z.eqb_spec (StatusCode response) 200) as [Heq|Hne]; simpl.
    + destruct (String.eqb_spec (Header_Get (resp_Header response) "Content-Type")
                  "application/json") as [Hj|_]; [contradiction|].
      simpl. eexists; split; [reflexivity | reflexivity].
    + eexists; split; [reflexivity | intros; contradiction].
Qed.
End Fetch.

(** The status code is printed in decimal. *)
Example fmt_d_404 : fmt_d 404 = "404".
Proof. reflexivity. Qed.

Lemma fetchAsset_rejects_witness :
  fetchAsset plain_NewRequest sample_source "http://testserver/assets/channel" "channel"
    = (nil_slice, Some (errors_New "dial tcp: connection refused")) /\
  fetchAsset plain_NewRequest sample_source "http://testserver/assets/flow" "flow"
    = (nil_slice, Some (errors_New "request returned non-200 response (404)")) /\
  fetchAsset plain_NewRequest sample_source "http://testserver/assets/label" "label"
    = (nil_slice, Some (errors_New "request returned non-JSON response")).
Proof.
  split; [|split].
  - apply (proj1 (fetchAsset_rejects plain_NewRequest sample_source
                    "http://testserver/assets/channel" "channel" _ eq_refl)).
    reflexivity.
  - apply (proj1 (proj2 (fetchAsset_rejects plain_NewRequest sample_source
                           "http://testserver/assets/flow" "flow" _ eq_refl))
             (mkResponse 404 json_header (Some [], None))).
    + reflexivity.
    + discriminate.
  - destruct (proj2 (proj2 (fetchAsset_rejects plain_NewRequest sample_source
                              "http://testserver/assets/label" "label" _ eq_refl))
                (mkResponse 200 html_header (Some [], None)) eq_refl)
      as (err & Hfetch & Herr).
    + vm_compute. discriminate.
    + rewrite Hfetch, (Herr eq_refl). reflexivity.
Defined.

End AssetServerFacts.

(** ** The call_classifier action *)
Module ClassifyFacts.
Import GoError Classify Fixtures.

Section Action.
Variable Reference_String : ClassifierReference -> string.
Variable json_Marshal : Classification -> string.

Local Abbreviation Execute := (Classify.Execute Reference_String json_Marshal).

Lemma template_errors_not_calls (err : option error) (e : Event) :
  e ∈ template_errors err -> is_classifier_called e = false.
Proof.
  destruct err as [err|]; simpl; intros Hin.
  - apply list_elem_of_singleton in Hin. by subst e.
  - by apply elem_of_nil in Hin.
Qed.

Lemma Execute_empty_input (a : CallClassifierAction) (run : FlowRun) (step : Step)
    (err : option error) :
  run_EvaluateTemplate run (act_Input a) = (EmptyString, err) ->
  Execute a run step =
  let '(run', events) :=
    saveSkipped a run step EmptyString
      (template_errors err
       ++ [EvError "can't classify empty input, skipping classification"]) in
  Returned run' events None.
Proof. intros Hev. unfold Classify.Execute. rewrite Hev. reflexivity. Qed.

Lemma Execute_missing_classifier (a : CallClassifierAction) (run : FlowRun)
    (step : Step) (input : string) (err : option error) :
  run_EvaluateTemplate run (act_Input a) = (input, err) ->
  input <> EmptyString ->
  run_Classifiers run !! ref_UUID (act_Classifier a) = None ->
  Execute a run step =
  let '(run', events) :=
    saveFailure a run step input
      (template_errors err
       ++ [EvError ("missing " +:+ Reference_String (act_Classifier a))]) in
  Returned run' events None.
Proof.
  intros Hev Hne Hnone. unfold Classify.Execute, classify.
  rewrite Hev, Hnone.
  destruct (String.eqb_spec input EmptyString) as [Heq|_]; [contradiction|].
  reflexivity.
Qed.

(** C4: when the input evaluates to the empty string, [Execute] returns
    without error, the run holds under the action's result name a result
    of category "skipped" and value "0", and no event passed to
    [logEvent] is a classifier-called event. *)
Theorem Execute_empty_input_saves_skipped
    (a : CallClassifierAction) (run : FlowRun) (step : Step) :
  fst (run_EvaluateTemplate run (act_Input a)) = EmptyString ->
  exists (run' : FlowRun) (events : list Event),
    Execute a run step = Returned run' events None /\
    run_Results run' !! act_ResultName a =
      Some (NewResult (act_ResultName a) "0" "skipped" EmptyString
              (step_NodeUUID step) EmptyString None) /\
    (forall e, e ∈ events -> is_classifier_called e = false).
Proof.
  intros Hin.
  destruct (run_EvaluateTemplate run (act_Input a)) as [input err] eqn:Hev.
  simpl in Hin; subst input.
  rewrite (Execute_empty_input a run step err Hev).
  unfold saveSkipped, saveResult. eexists _, _.
  split; [reflexivity|]. split.
  - simpl. apply lookup_insert_eq.
  - intros e He.
    repeat (apply elem_of_app in He as [He|He]).
    + by apply template_errors_not_calls in He.
    + apply list_elem_of_singleton in He. by subst e.
    + apply list_elem_of_singleton in He. by subst e.
Qed.

(** C5: when the input is not empty and the session has no classifier
    with the referenced UUID, [Execute] returns nil, the run holds under
    the action's result name a result of category "failure" and value
    "0", and an error event whose text is "missing " followed by the
    reference of the classifier has been logged. *)
Theorem Execute_missing_classifier_saves_failure
    (a : CallClassifierAction) (run : FlowRun) (step : Step) :
  fst (run_EvaluateTemplate run (act_Input a)) <> EmptyString ->
  run_Classifiers run !! ref_UUID (act_Classifier a) = None ->
  exists (run' : FlowRun) (events : list Event),
    Execute a run step = Returned run' events None /\
    run_Results run' !! act_ResultName a =
      Some (NewResult (act_ResultName a) "0" "failure" EmptyString
              (step_NodeUUID step)
              (fst (run_EvaluateTemplate run (act_Input a))) None) /\
    EvError ("missing " +:+ Reference_String (act_Classifier a)) ∈ events /\
    (forall e, e ∈ events -> is_classifier_called e = false).
Proof.
  intros Hne Hnone.
  destruct (run_EvaluateTemplate run (act_Input a)) as [input err] eqn:Hev.
  simpl in *.
  rewrite (Execute_missing_classifier a run step input err Hev Hne Hnone).
  unfold saveFailure, saveResult. eexists _, _.
  split; [reflexivity|]. split; [|split].
  - simpl. apply lookup_insert_eq.
  - apply elem_of_app. left. apply elem_of_app. right. by left.
  - intros e He.
    repeat (apply elem_of_app in He as [He|He]).
    + by apply template_errors_not_calls in He.
    + apply list_elem_of_singleton in He. by subst e.
    + apply list_elem_of_singleton in He. by subst e.
Qed.
End Action.

Lemma Execute_empty_input_saves_skipped_witness :
  exists (run' : FlowRun) (events : list Event),
    Classify.Execute show_reference show_classification
      classify_intent run_without_input first_step = Returned run' events None /\
    run_Results run' !! "Intent" =
      Some (NewResult "Intent" "0" "skipped" EmptyString
              "a58be63b-907d-4a1a-856b-0bb5579d7507" EmptyString None) /\
    (forall e, e ∈ events -> is_classifier_called e = false).
Proof.
  apply (Execute_empty_input_saves_skipped show_reference show_classification
           classify_intent run_without_input first_step).
  reflexivity.
Defined.

Lemma Execute_missing_classifier_saves_failure_witness :
  exists (run' : FlowRun) (events : list Event),
    Classify.Execute show_reference show_classification
      classify_intent run_without_classifier first_step = Returned run' events None /\
    run_Results run' !! "Intent" =
      Some (NewResult "Intent" "0" "failure" EmptyString
              "a58be63b-907d-4a1a-856b-0bb5579d7507" "book a flight to Quito" None) /\
    EvError "missing classifier[uuid=1c06c884-39dd-4ce4-ad9f-9a01cbe6c000,name=Booking]"
      ∈ events /\
    (forall e, e ∈ events -> is_classifier_called e = false).
Proof.
  apply (Execute_missing_classifier_saves_failure show_reference show_classification
           classify_intent run_without_classifier first_step).
  - discriminate.
  - reflexivity.
Defined.

End ClassifyFacts.

(** ** Decoding a contact *)
Module ContactJSONFacts.
Import GoSlice GoError Contacts ContactJSON Fixtures.

Lemma decode_items_ok {A} (dec : JSON -> error + A) (items : list JSON) :
  forallb (fun i => is_ok (dec i)) items = true ->
  exists xs, decode_items dec items = inr xs.
Proof.
  induction items as [|i rest IH]; simpl; intros Hall; [by eexists|].
  apply andb_prop in Hall as [Hi Hrest].
  destruct (dec i) as [err|x]; [discriminate|].
  destruct (IH Hrest) as [xs ->]. by eexists.
Qed.

Lemma decode_slice_ok {A} (f : envelope_field) (dec : JSON -> error + A) (v : JSON) :
  array_or_null dec v = true ->
  exists x, decode_slice f dec v = inr x /\ (v = JNull -> x = nil_slice).
Proof.
  destruct v; simpl; intros Hv; try discriminate.
  - by eexists.
  - destruct (decode_items_ok dec items Hv) as [xs ->].
    eexists; split; [reflexivity | discriminate].
Qed.

Section Decode.
Variable equalFold : string -> string -> bool.
Variable unmarshalURN : JSON -> error + URN.
Variable unmarshalGroup : JSON -> error + Group.
Variable unmarshalFields : JSON -> error + Fields.

Local Abbreviation field_for_key := (ContactJSON.field_for_key equalFold).
Local Abbreviation decode_member :=
  (ContactJSON.decode_member equalFold unmarshalURN unmarshalGroup unmarshalFields).
Local Abbreviation decode_members :=
  (ContactJSON.decode_members equalFold unmarshalURN unmarshalGroup unmarshalFields).
Local Abbreviation well_formed_member :=
  (ContactJSON.well_formed_member equalFold unmarshalURN unmarshalGroup unmarshalFields).
Local Abbreviation ReadContact :=
  (ContactJSON.ReadContact equalFold unmarshalURN unmarshalGroup unmarshalFields).
Local Abbreviation contact_document :=
  (ContactJSON.contact_document equalFold unmarshalURN unmarshalGroup unmarshalFields).
Local Abbreviation absent_or_null := (ContactJSON.absent_or_null equalFold).
Local Abbreviation seen := (ContactJSON.seen equalFold).

(** A well-formed member decodes; if it is the null member for [f] the
    envelope is nil there afterwards, and a member for another field
    leaves the envelope at [f] as it is. *)
Lemma decode_member_ok (f : envelope_field) (ce : contactEnvelope)
    (kv : string * JSON) (acc : option JSON) :
  nillable f = true ->
  well_formed_member kv = true ->
  (null_so_far acc = true -> nil_at f ce = true) ->
  exists ce',
    decode_member ce kv = inr ce' /\
    (null_so_far (seen f acc kv) = true -> nil_at f ce' = true).
Proof.
  unfold ContactJSON.well_formed_member, ContactJSON.decode_member, ContactJSON.seen.
  intros Hf Hwf Hinv.
  destruct (field_for_key (fst kv)) as [f'|]; [|by eexists].
  destruct f'.
  1-3: destruct (snd kv) eqn:Hv; try discriminate; simpl;
       (eexists; split; [reflexivity|]);
       destruct f; simpl in *; try discriminate; exact Hinv.
  - destruct (decode_slice_ok F_urns unmarshalURN (snd kv) Hwf) as (x & -> & Hnull).
    eexists; split; [reflexivity|].
    destruct f; simpl in *; try discriminate; try exact Hinv.
    destruct (snd kv); try discriminate. by rewrite Hnull.
  - destruct (decode_slice_ok F_groups unmarshalGroup (snd kv) Hwf) as (x & -> & Hnull).
    eexists; split; [reflexivity|].
    destruct f; simpl in *; try discriminate; try exact Hinv.
    destruct (snd kv); try discriminate. by rewrite Hnull.
  - unfold fields_or_null, decode_fields in *.
    destruct (snd kv) eqn:Hv.
    2-6: destruct (unmarshalFields _) as [err|fs]; try discriminate.
    all: eexists; (split; [reflexivity|]).
    all: destruct f; simpl in *; try discriminate; try exact Hinv; reflexivity.
Qed.

Lemma decode_members_ok (f : envelope_field) (members : list (string * JSON))
    (ce : contactEnvelope) (acc : option JSON) :
  nillable f = true ->
  forallb well_formed_member members = true ->
  (null_so_far acc = true -> nil_at f ce = true) ->
  exists ce',
    decode_members members ce = inr ce' /\
    (null_so_far (fold_left (seen f) members acc) = true -> nil_at f ce' = true).
Proof.
  intros Hf.
  revert ce acc; induction members as [|kv rest IH]; simpl; intros ce acc Hall Hinv.
  - by eexists.
  - apply andb_prop in Hall as [Hkv Hrest].
    destruct (decode_member_ok f ce kv acc Hf Hkv Hinv) as (ce1 & -> & Hinv1).
    exact (IH ce1 (seen f acc kv) Hrest Hinv1).
Qed.

(** C10: a contact document decodes without error; the decoded contact
    has a URN list and a group list that are not nil and fields that are
    not nil; where the document has no urns member or a null one the URN
    list is the empty list, and likewise the group list for groups and
    the fields, which are then the new empty fields, for fields. *)
Theorem ReadContact_never_nil (data : JSON) :
  contact_document data = true ->
  exists c : Contact,
    ReadContact data = (c, None) /\
    is_nil (URNs c) = false /\ is_nil (Groups c) = false /\ GetFields c <> None /\
    (absent_or_null F_urns data = true -> URNs c = make0) /\
    (absent_or_null F_groups data = true -> Groups c = make0) /\
    (absent_or_null F_fields data = true -> GetFields c = Some NewFields).
Proof.
  destruct data as [| | | | |members]; try discriminate. simpl. intros Hwf.
  destruct (decode_members_ok F_urns members zeroEnvelope None eq_refl Hwf
              (fun _ => eq_refl)) as (ce & Hdec & Hurns).
  destruct (decode_members_ok F_groups members zeroEnvelope None eq_refl Hwf
              (fun _ => eq_refl)) as (ce' & Hdec' & Hgroups).
  destruct (decode_members_ok F_fields members zeroEnvelope None eq_refl Hwf
              (fun _ => eq_refl)) as (ce'' & Hdec'' & Hfields).
  rewrite Hdec in Hdec', Hdec''. injection Hdec' as <-. injection Hdec'' as <-.
  unfold ContactJSON.ReadContact, UnmarshalJSON, unmarshal_envelope.
  rewrite Hdec. eexists. split; [reflexivity|]. simpl in *.
  repeat split.
  - by destruct (ce_URNs ce).
  - by destruct (ce_Groups ce).
  - by destruct (ce_Fields ce).
  - intros Hn. by rewrite (Hurns Hn).
  - intros Hn. by rewrite (Hgroups Hn).
  - intros Hn. specialize (Hfields Hn). by destruct (ce_Fields ce).
Qed.

End Decode.

(** A later member overrides an earlier one, a key matches by case
    folding, and a member of the wrong shape fails the decoding. *)
Example ReadContact_last_member_wins :
  ContactJSON.ReadContact ascii_fold urn_of_json group_of_json fields_of_json
    (JObject [ ("urns", JArray [JString "tel:+250781234567"]);
               ("Urns", JArray [JString "tel:+250721234567"]);
               ("urns", JNull); ("groups", JArray []) ])
  = (mkContact EmptyString EmptyString EmptyString (Some []) (Some []) (Some NewFields), None).
Proof. vm_compute. reflexivity. Qed.

Example ReadContact_wrong_shape :
  snd (ContactJSON.ReadContact ascii_fold urn_of_json group_of_json fields_of_json
         (JObject [("name", JNumber "5")]))
  = Some (errors_New
            "json: cannot unmarshal number into Go struct field contactEnvelope.name of type string").
Proof. vm_compute. reflexivity. Qed.

Lemma ReadContact_never_nil_witness :
  exists c : Contact,
    ContactJSON.ReadContact ascii_fold urn_of_json group_of_json fields_of_json
      contact_without_lists = (c, None) /\
    is_nil (URNs c) = false /\ is_nil (Groups c) = false /\ GetFields c <> None /\
    URNs c = make0 /\ Groups c = make0 /\ GetFields c = Some NewFields.
Proof.
  destruct (ReadContact_never_nil ascii_fold urn_of_json group_of_json fields_of_json
              contact_without_lists eq_refl)
    as (c & Hread & Hu & Hg & Hf & Hurns & Hgroups & Hfields).
  exists c. repeat split; auto.
Defined.

End ContactJSONFacts.

(** ** The channel router *)
Module ChannelFacts.
Import Channels Fixtures.

Lemma best_overlap_snoc (number : string) (l : list Channel) (c : Channel) :
  best_overlap number (l ++ [c]) = overlap_step number (best_overlap number l) c.
Proof. unfold best_overlap. by rewrite fold_left_app. Qed.

Lemma best_overlap_None (number : string) (l : list Channel) :
  best_overlap number l = None -> l = [].
Proof.
  induction l as [|c l IH] using rev_ind; [reflexivity|].
  rewrite best_overlap_snoc. unfold overlap_step.
  destruct (best_overlap number l) as [b|]; [|discriminate].
  by destruct (overlap b number <=? overlap c number)%nat.
Qed.

(** The channel chosen by overlap is the last one of greatest overlap:
    nothing declared before it has more, everything declared after it
    has less. *)
Lemma best_overlap_last_max (number : string) (l : list Channel) (c : Channel) :
  best_overlap number l = Some c ->
  exists l1 l2,
    l = l1 ++ c :: l2 /\
    (forall b, b ∈ l1 -> overlap b number <= overlap c number) /\
    (forall b, b ∈ l2 -> overlap b number < overlap c number).
Proof.
  revert c; induction l as [|x l IH] using rev_ind; intros c; [discriminate|].
  rewrite best_overlap_snoc. unfold overlap_step.
  destruct (best_overlap number l) as [b|] eqn:Hb.
  - destruct (IH b eq_refl) as (l1 & l2 & -> & Hle & Hlt).
    destruct (Nat.leb_spec (overlap b number) (overlap x number)) as [Hbx|Hxb];
      intros [= <-].
    + exists (l1 ++ b :: l2), []. split; [reflexivity|]. split.
      * intros b' Hin. apply elem_of_app in Hin as [Hin|Hin].
        -- specialize (Hle b' Hin). lia.
        -- apply elem_of_cons in Hin as [->|Hin]; [lia|].
           specialize (Hlt b' Hin). lia.
      * intros b' Hin. by apply elem_of_nil in Hin.
    + exists l1, (l2 ++ [x]). split; [by rewrite <- app_assoc|]. split; [exact Hle|].
      intros b' Hin. apply elem_of_app in Hin as [Hin|Hin]; [by apply Hlt|].
      apply list_elem_of_singleton in Hin. by subst b'.
  - apply best_overlap_None in Hb. subst l. intros [= <-].
    exists [], []. repeat split; intros b' Hin; by apply elem_of_nil in Hin.
Qed.

(** The assertions of [TestChannelSetGetForURN] hold of the model. *)
Example test_no_channel :
  GetForURN [] (NewContactURN "tel:+12345678999" None) ChannelRoleSend = None.
Proof. reflexivity. Qed.

Example test_no_scheme :
  GetForURN [claro; mtn; tigo; twitter]
    (NewContactURN "mailto:rowan@foo.bar" None) ChannelRoleSend = None.
Proof. vm_compute. reflexivity. Qed.

Example test_preferred_channel :
  GetForURN [claro; mtn; tigo; twitter]
    (NewContactURN "tel:+250962222222" (Some tigo)) ChannelRoleSend = Some tigo.
Proof. vm_compute. reflexivity. Qed.

Example test_only_channel_for_scheme :
  GetForURN [claro; mtn; tigo; twitter]
    (NewContactURN "twitter:nyaruka2" None) ChannelRoleSend = Some twitter.
Proof. vm_compute. reflexivity. Qed.

Example test_only_channel_for_country :
  GetForURN [claro; mtn; tigo; twitter]
    (NewContactURN "tel:+593971234567" None) ChannelRoleSend = Some claro.
Proof. vm_compute. reflexivity. Qed.

Example test_longest_overlap :
  GetForURN [claro; mtn; tigo; twitter]
    (NewContactURN "tel:+250781234567" None) ChannelRoleSend = Some mtn /\
  GetForURN [claro; mtn; tigo; twitter]
    (NewContactURN "tel:+250721234567" None) ChannelRoleSend = Some tigo /\
  GetForURN [claro; mtn; tigo; twitter]
    (NewContactURN "tel:+250962222222" None) ChannelRoleSend = Some tigo.
Proof. repeat split; vm_compute; reflexivity. Qed.

Example test_delegates :
  GetForURN [android; bulk]
    (NewContactURN "tel:+250721234567" None) ChannelRoleReceive = Some android /\
  GetForURN [android; bulk]
    (NewContactURN "tel:+250721234567" None) ChannelRoleSend = Some bulk.
Proof. repeat split; vm_compute; reflexivity. Qed.

Example test_match_prefixes :
  GetForURN [short1; short2]
    (NewContactURN "tel:+250781234567" None) ChannelRoleSend = Some short1 /\
  GetForURN [short1; short2]
    (NewContactURN "tel:+250771234567" None) ChannelRoleSend = Some short1 /\
  GetForURN [short1; short2]
    (NewContactURN "tel:+250721234567" None) ChannelRoleSend = Some short2.
Proof. repeat split; vm_compute; reflexivity. Qed.

(** C1: on the channels Claro, MTN and Tigo declared in that order,
    resolving for the send role gives MTN for tel:+250781234567 (an
    overlap of 5 digits against 4), Tigo for tel:+250721234567 (5
    against 4) and Tigo for tel:+250962222222 (3 against 3); in general
    the channel chosen by overlap has the greatest overlap and is the
    last declared of those that have it. *)
Theorem scenario_C_longest_overlap_last_wins :
  GetForURN scenario_C (NewContactURN "tel:+250781234567" None) ChannelRoleSend
    = Some mtn /\
  GetForURN scenario_C (NewContactURN "tel:+250721234567" None) ChannelRoleSend
    = Some tigo /\
  GetForURN scenario_C (NewContactURN "tel:+250962222222" None) ChannelRoleSend
    = Some tigo /\
  (overlap mtn "250781234567", overlap tigo "250781234567") = (5, 4) /\
  (overlap mtn "250721234567", overlap tigo "250721234567") = (4, 5) /\
  (overlap mtn "250962222222", overlap tigo "250962222222") = (3, 3) /\
  (forall (number : string) (candidates : list Channel) (c : Channel),
      best_overlap number candidates = Some c ->
      exists l1 l2,
        candidates = l1 ++ c :: l2 /\
        (forall b, b ∈ l1 -> overlap b number <= overlap c number) /\
        (forall b, b ∈ l2 -> overlap b number < overlap c number)).
Proof.
  repeat (split; [vm_compute; reflexivity|]).
  exact best_overlap_last_max.
Qed.

Lemma scenario_C_longest_overlap_last_wins_witness :
  exists l1 l2,
    [claro; mtn; tigo] = l1 ++ tigo :: l2 /\
    (forall b, b ∈ l1 -> overlap b "250962222222" <= overlap tigo "250962222222") /\
    (forall b, b ∈ l2 -> overlap b "250962222222" < overlap tigo "250962222222").
Proof.
  apply (proj2 (proj2 (proj2 (proj2 (proj2 (proj2
           scenario_C_longest_overlap_last_wins)))))).
  vm_compute. reflexivity.
Defined.

(** What [getDelegate] returns: a delegate of the channel that has the
    role when the set declares one, the channel itself otherwise. *)
Lemma getDelegate_cases (all : list Channel) (ch : Channel) (role : ChannelRole) :
  (getDelegate all ch role ∈ all /\
   is_delegate_of (getDelegate all ch role) ch = true /\
   HasRole (getDelegate all ch role) role = true) \/
  (getDelegate all ch role = ch /\
   forall d, d ∈ all -> is_delegate_of d ch = true -> HasRole d role = false).
Proof.
  unfold getDelegate.
  destruct (List.find _ all) as [d|] eqn:Hfind.
  - left. apply find_some in Hfind as [Hin Hd].
    apply andb_prop in Hd as [Hd Hr]. by rewrite <- list_elem_of_In in Hin.
  - right. split; [reflexivity|]. intros d Hin Hd.
    rewrite list_elem_of_In in Hin.
    pose proof (find_none _ _ Hfind d Hin) as Hnone. simpl in Hnone.
    rewrite Hd in Hnone. exact Hnone.
Qed.

Lemma getDelegate_substitutes (all : list Channel) (ch d : Channel)
    (role : ChannelRole) :
  d ∈ all -> is_delegate_of d ch = true -> HasRole d role = true ->
  getDelegate all ch role ∈ all /\
  is_delegate_of (getDelegate all ch role) ch = true /\
  HasRole (getDelegate all ch role) role = true.
Proof.
  intros Hin Hd Hr.
  destruct (getDelegate_cases all ch role) as [Hsub|[_ Hnone]]; [exact Hsub|].
  rewrite (Hnone d Hin Hd) in Hr. discriminate.
Qed.

Lemma ResolveChannel_has_role (all : list Channel) (urn : ContactURN)
    (role : ChannelRole) (c : Channel) :
  ResolveChannel all urn role = Some c -> HasRole c role = true.
Proof.
  unfold ResolveChannel, pinned_affinity.
  destruct (urn_Channel urn) as [pinned|].
  - destruct (HasRole (getDelegate all pinned role) role) eqn:Hp.
    + by intros [= <-].
    + destruct (select _ _) as [sel|]; [|discriminate].
      destruct (HasRole (getDelegate all sel role) role) eqn:Hs; [|discriminate].
      by intros [= <-].
  - destruct (select _ _) as [sel|]; [|discriminate].
    destruct (HasRole (getDelegate all sel role) role) eqn:Hs; [|discriminate].
    by intros [= <-].
Qed.

(** C2: when the URN is pinned to a channel and that channel, or a
    channel of the set that delegates for it, has the required role,
    resolution returns the pinned channel or that delegate, whatever the
    other channels of the set and their addresses are: the result has
    the role and is the delegate if the set declares one with the role,
    the pinned channel otherwise. *)
Theorem pinned_channel_always_wins (all : list Channel) (urn : ContactURN)
    (role : ChannelRole) (pinned : Channel) :
  urn_Channel urn = Some pinned ->
  (HasRole pinned role = true \/
   exists d, d ∈ all /\ is_delegate_of d pinned = true /\ HasRole d role = true) ->
  exists c,
    GetForURN all urn role = Some c /\
    c = getDelegate all pinned role /\
    HasRole c role = true /\
    (c = pinned \/ (c ∈ all /\ is_delegate_of c pinned = true)).
Proof.
  intros Hpin Hrole.
  assert (HasRole (getDelegate all pinned role) role = true) as Hd.
  { destruct (getDelegate_cases all pinned role) as [(_ & _ & Hr)|[Heq Hnone]];
      [exact Hr|].
    rewrite Heq. destruct Hrole as [Hr|(d & Hin & Hdel & Hr)]; [exact Hr|].
    rewrite (Hnone d Hin Hdel) in Hr. discriminate. }
  exists (getDelegate all pinned role).
  unfold GetForURN, ResolveChannel, pinned_affinity. rewrite Hpin. simpl.
  rewrite Hd. split; [reflexivity|]. split; [reflexivity|]. split; [reflexivity|].
  destruct (getDelegate_cases all pinned role) as [(Hin & Hdel & _)|[Heq _]];
    [right; by split | by left].
Qed.

Lemma pinned_channel_always_wins_witness :
  (exists c,
      GetForURN [claro; mtn; tigo; twitter]
        (NewContactURN "tel:+250962222222" (Some mtn)) ChannelRoleSend = Some c /\
      c = mtn) /\
  (exists c,
      GetForURN [android; bulk]
        (NewContactURN "tel:+250721234567" (Some android)) ChannelRoleSend = Some c /\
      c = bulk).
Proof.
  split.
  - destruct (pinned_channel_always_wins [claro; mtn; tigo; twitter]
                (NewContactURN "tel:+250962222222" (Some mtn)) ChannelRoleSend mtn
                eq_refl (or_introl eq_refl)) as (c & Hres & Hc & _).
    exists c. split; [exact Hres|]. rewrite Hc. reflexivity.
  - destruct (pinned_channel_always_wins [android; bulk]
                (NewContactURN "tel:+250721234567" (Some android)) ChannelRoleSend
                android eq_refl (or_introl eq_refl)) as (c & Hres & Hc & _).
    exists c. split; [exact Hres|]. rewrite Hc. reflexivity.
Defined.

Lemma ResolveChannel_selected (all : list Channel) (urn : ContactURN)
    (role : ChannelRole) (selected : Channel) :
  pinned_affinity all urn role = None ->
  select (number_of urn) (candidates_for all urn) = Some selected ->
  ResolveChannel all urn role =
  if HasRole (getDelegate all selected role) role
  then Some (getDelegate all selected role) else None.
Proof. intros Hpin Hsel. unfold ResolveChannel. by rewrite Hpin, Hsel. Qed.

(** C3: for a selected channel the delegate is substituted exactly when
    the set declares a delegate of it that has the required role: then
    the substitute is such a delegate, otherwise the selection stays;
    resolution returns that substitute in place of its selection when
    there is such a delegate and the selection itself, if it has the
    role, when there is none; and whatever resolution returns has the
    required role, so a delegate without it is never returned. *)
Theorem delegate_only_with_role :
  (forall (all : list Channel) (selected : Channel) (role : ChannelRole),
      (exists d, d ∈ all /\ is_delegate_of d selected = true /\
                 HasRole d role = true) ->
      getDelegate all selected role ∈ all /\
      is_delegate_of (getDelegate all selected role) selected = true /\
      HasRole (getDelegate all selected role) role = true) /\
  (forall (all : list Channel) (selected : Channel) (role : ChannelRole),
      (forall d, d ∈ all -> is_delegate_of d selected = true ->
                 HasRole d role = false) ->
      getDelegate all selected role = selected) /\
  (forall (all : list Channel) (urn : ContactURN) (role : ChannelRole) (c : Channel),
      GetForURN all urn role = Some c -> HasRole c role = true) /\
  (forall (all : list Channel) (urn : ContactURN) (role : ChannelRole)
          (selected : Channel),
      pinned_affinity all urn role = None ->
      select (number_of urn) (candidates_for all urn) = Some selected ->
      (exists d, d ∈ all /\ is_delegate_of d selected = true /\
                 HasRole d role = true) ->
      exists d',
        GetForURN all urn role = Some d' /\
        d' = getDelegate all selected role /\
        d' ∈ all /\ is_delegate_of d' selected = true /\ HasRole d' role = true) /\
  (forall (all : list Channel) (urn : ContactURN) (role : ChannelRole)
          (selected : Channel),
      pinned_affinity all urn role = None ->
      select (number_of urn) (candidates_for all urn) = Some selected ->
      (forall d, d ∈ all -> is_delegate_of d selected = true ->
                 HasRole d role = false) ->
      GetForURN all urn role =
      if HasRole selected role then Some selected else None) /\
  (forall (all : list Channel) (urn : ContactURN) (role : ChannelRole) (c : Channel),
      pinned_affinity all urn role = None ->
      GetForURN all urn role = Some c ->
      exists selected,
        select (number_of urn) (candidates_for all urn) = Some selected /\
        c = getDelegate all selected role).
Proof.
  split; [|split; [|split; [|split; [|split]]]].
  - intros all selected role (d & Hin & Hd & Hr).
    by apply (getDelegate_substitutes all selected d role).
  - intros all selected role Hnone.
    destruct (getDelegate_cases all selected role) as [(Hin & Hd & Hr)|[Heq _]];
      [|exact Heq].
    rewrite (Hnone _ Hin Hd) in Hr. discriminate.
  - exact ResolveChannel_has_role.
  - intros all urn role selected Hpin Hsel (d & Hin & Hd & Hr).
    destruct (getDelegate_substitutes all selected d role Hin Hd Hr)
      as (Hin' & Hd' & Hr').
    exists (getDelegate all selected role). unfold GetForURN.
    rewrite (ResolveChannel_selected all urn role selected Hpin Hsel), Hr'.
    by repeat split.
  - intros all urn role selected Hpin Hsel Hnone. unfold GetForURN.
    rewrite (ResolveChannel_selected all urn role selected Hpin Hsel).
    destruct (getDelegate_cases all selected role) as [(Hin & Hd & Hr)|[Heq _]].
    + rewrite (Hnone _ Hin Hd) in Hr. discriminate.
    + by rewrite Heq.
  - intros all urn role c Hpin. unfold GetForURN, ResolveChannel. rewrite Hpin.
    destruct (select _ _) as [selected|]; [|discriminate].
    destruct (HasRole (getDelegate all selected role) role); [|discriminate].
    intros [= <-]. by exists selected.
Qed.

Lemma delegate_only_with_role_witness :
  getDelegate [android; bulk] android ChannelRoleReceive = android /\
  HasRole bulk ChannelRoleSend = true /\
  GetForURN [android; bulk] (NewContactURN "tel:+250721234567" None)
    ChannelRoleSend = Some bulk /\
  GetForURN [android; bulk] (NewContactURN "tel:+250721234567" None)
    ChannelRoleReceive = Some android.
Proof.
  split; [|split; [|split]].
  - apply (proj1 (proj2 delegate_only_with_role)).
    apply (proj1 (Forall_forall
                    (fun d => is_delegate_of d android = true ->
                              HasRole d ChannelRoleReceive = false) _)).
    decide_closed.
  - apply (proj1 (proj2 (proj2 delegate_only_with_role)) [android; bulk]
             (NewContactURN "tel:+250721234567" None)).
    vm_compute. reflexivity.
  - destruct (proj1 (proj2 (proj2 (proj2 delegate_only_with_role)))
                [android; bulk] (NewContactURN "tel:+250721234567" None)
                ChannelRoleSend android eq_refl eq_refl)
      as (d' & Hres & Hd' & _).
    + exists bulk. split; [|split; reflexivity].
      apply elem_of_cons. right. apply elem_of_cons. by left.
    + rewrite Hres, Hd'. reflexivity.
  - apply (proj1 (proj2 (proj2 (proj2 (proj2 delegate_only_with_role))))
             [android; bulk] (NewContactURN "tel:+250721234567" None)
             ChannelRoleReceive android eq_refl eq_refl).
    apply (proj1 (Forall_forall
                    (fun d => is_delegate_of d android = true ->
                              HasRole d ChannelRoleReceive = false) _)).
    decide_closed.
Defined.

End ChannelFacts.

(** ** Contacts: resolving, composing and encoding *)
Module ContactAccessFacts.
Import GoSlice GoError Contacts ContactJSON ContactAccess Fixtures.

(** X1: a key that [Resolve] does not know gives an error naming the
    key, and only such a key does; keys are matched exactly, and "urn"
    resolves to what "urns" resolves to. *)
Theorem Resolve_unknown_key_is_error (c : Contact) (key : string) :
  (key ∉ resolvable ->
   Resolve c key = RError (Errorf ("No field '" +:+ key +:+ "' on contact"))) /\
  (key ∈ resolvable -> forall e, Resolve c key <> RError e) /\
  Resolve c "urn" = Resolve c "urns".
Proof.
  unfold resolvable, Resolve. split; [|split; [|reflexivity]].
  - intros Hn. repeat (apply not_elem_of_cons in Hn as [? Hn]).
    repeat match goal with
           | |- context [String.eqb key ?k] =>
               destruct (String.eqb_spec key k); [congruence|]
           end.
    reflexivity.
  - intros Hin e.
    repeat (apply elem_of_cons in Hin as [->|Hin]; [discriminate|]).
    by apply elem_of_nil in Hin.
Qed.

Lemma Resolve_unknown_key_is_error_witness :
  Resolve two_groups "Name" = RError (Errorf "No field 'Name' on contact") /\
  (forall e, Resolve two_groups "groups" <> RError e).
Proof.
  split.
  - apply (proj1 (Resolve_unknown_key_is_error two_groups "Name")). decide_closed.
  - apply (proj1 (proj2 (Resolve_unknown_key_is_error two_groups "groups"))).
    decide_closed.
Defined.

(** X2: each mutator changes what [Resolve] gives for its own key only:
    [SetName] for name, [SetLanguage] for language, [AddGroup] and
    [RemoveGroup] for groups. *)
Theorem Resolve_frame (c : Contact) (key : string) :
  (forall n, key <> "name" -> Resolve (SetName c n) key = Resolve c key) /\
  (forall l, key <> "language" -> Resolve (SetLanguage c l) key = Resolve c key) /\
  (forall u n, key <> "groups" -> Resolve (AddGroup c u n) key = Resolve c key) /\
  (forall u, key <> "groups" -> Resolve (fst (RemoveGroup c u)) key = Resolve c key) /\
  (forall n, Resolve (SetName c n) "name" = RString n) /\
  (forall l, Resolve (SetLanguage c l) "language" = RLanguage l).
Proof.
  unfold Resolve. repeat split; try reflexivity.
  - intros n Hk. by destruct (String.eqb_spec key "name").
  - intros l Hk.
    destruct (String.eqb_spec key "language"); [contradiction|reflexivity].
  - intros u n Hk.
    destruct (String.eqb_spec key "groups"); [contradiction|reflexivity].
  - intros u Hk. unfold RemoveGroup.
    destruct (first_index u (elems (groups c))); simpl; [|reflexivity].
    destruct (String.eqb_spec key "groups"); [contradiction|reflexivity].
Qed.

Lemma Resolve_frame_witness :
  Resolve (AddGroup two_groups "g3" "Farmers") "urns" = Resolve two_groups "urns" /\
  Resolve (SetName two_groups "Ann") "groups" = Resolve two_groups "groups".
Proof.
  split.
  - apply (proj1 (proj2 (proj2 (Resolve_frame two_groups "urns")))). discriminate.
  - apply (proj1 (Resolve_frame two_groups "groups")). discriminate.
Defined.

Lemma first_index_app_fresh (u : GroupUUID) (l : list Group) (g : Group) :
  (u ∉ group_uuid <$> l) -> group_uuid g = u ->
  first_index u (l ++ [g]) = Some (length l).
Proof.
  intros Hn Hg. induction l as [|x l IH]; simpl.
  - rewrite Hg, String.eqb_refl. reflexivity.
  - rewrite fmap_cons in Hn. apply not_elem_of_cons in Hn as [Hx Hn].
    destruct (String.eqb_spec (group_uuid x) u); [congruence|].
    by rewrite (IH Hn).
Qed.

Lemma first_index_app_found (u : GroupUUID) (l k : list Group) (i : nat) :
  first_index u l = Some i -> first_index u (l ++ k) = Some i.
Proof.
  revert i; induction l as [|x l IH]; simpl; intros i Hi; [discriminate|].
  destruct (String.eqb (group_uuid x) u); [exact Hi|].
  destruct (first_index u l) as [j|]; [|discriminate].
  by rewrite (IH j eq_refl).
Qed.

(** X3: adding a group the contact is not a member of and removing it
    again gives back the memberships the contact had, in their order,
    and [RemoveGroup] reports true. *)
Theorem RemoveGroup_undoes_fresh_AddGroup (c : Contact) (u : GroupUUID) (n : string) :
  u ∉ group_uuids c ->
  RemoveGroup (AddGroup c u n) u = (set_groups c (Some (elems (groups c))), true).
Proof.
  intros Hn. unfold RemoveGroup, AddGroup. simpl.
  rewrite (first_index_app_fresh u (elems (groups c)) (mkGroup u n) Hn eq_refl).
  unfold set_groups; simpl. do 2 f_equal.
  pose proof (ContactFacts.cut_split (elems (groups c)) [] (mkGroup u n)) as Hcut.
  rewrite app_nil_r in Hcut. exact Hcut.
Qed.

Lemma RemoveGroup_undoes_fresh_AddGroup_witness :
  RemoveGroup (AddGroup two_groups "g3" "Farmers") "g3" = (two_groups, true).
Proof.
  apply (RemoveGroup_undoes_fresh_AddGroup two_groups "g3" "Farmers").
  decide_closed.
Defined.

(** X4: adding a group the contact is already a member of and removing
    it takes out the older membership and keeps the one just added, at
    the end of the list. *)
Theorem RemoveGroup_after_repeated_AddGroup (c : Contact) (u : GroupUUID) (n : string) :
  u ∈ group_uuids c ->
  exists l1 g l2,
    elems (groups c) = l1 ++ g :: l2 /\ group_uuid g = u /\
    (u ∉ group_uuid <$> l1) /\
    RemoveGroup (AddGroup c u n) u =
      (set_groups c (Some (l1 ++ l2 ++ [mkGroup u n])), true).
Proof.
  intros Hin.
  destruct (first_index u (elems (groups c))) as [i|] eqn:Hi.
  - destruct (ContactFacts.first_index_Some _ _ _ Hi)
      as (l1 & g & l2 & Hl & Hlen & Hg & Hn).
    exists l1, g, l2. repeat split; auto.
    unfold RemoveGroup.
    change (elems (groups (AddGroup c u n)))
      with (elems (groups c) ++ [mkGroup u n]).
    rewrite (first_index_app_found u _ [mkGroup u n] i Hi).
    change (groups (AddGroup c u n))
      with (Some (elems (groups c) ++ [mkGroup u n])).
    rewrite Hl, <- Hlen, <- app_assoc. simpl.
    rewrite (ContactFacts.cut_split l1 (l2 ++ [mkGroup u n]) g).
    reflexivity.
  - apply ContactFacts.first_index_None in Hi. contradiction.
Qed.

Lemma RemoveGroup_after_repeated_AddGroup_witness :
  exists l1 g l2,
    elems (groups two_groups) = l1 ++ g :: l2 /\ group_uuid g = "g1" /\
    ("g1" ∉ group_uuid <$> l1) /\
    RemoveGroup (AddGroup two_groups "g1" "Renamed") "g1" =
      (set_groups two_groups (Some (l1 ++ l2 ++ [mkGroup "g1" "Renamed"])), true).
Proof.
  apply (RemoveGroup_after_repeated_AddGroup two_groups "g1" "Renamed").
  decide_closed.
Defined.

End ContactAccessFacts.

(** ** Contacts: encoding and decoding *)
Module ContactCodecFacts.
Import GoSlice GoError Contacts ContactJSON ContactAccess Fixtures Samples.

Lemma items_round_trip {A} (enc : A -> error + JSON) (dec : JSON -> error + A)
    (l : list A) :
  (forall x, x ∈ l -> exists j, enc x = inr j /\ dec j = inr x) ->
  exists js, encode_items enc l = inr js /\ decode_items dec js = inr l.
Proof.
  induction l as [|x l IH]; intros Hall; simpl; [by exists []|].
  destruct (Hall x) as (j & Hj & Hd); [by left|].
  destruct IH as (js & Hjs & Hds); [intros y Hy; apply Hall; by right|].
  exists (j :: js). rewrite Hj, Hjs. simpl. by rewrite Hd, Hds.
Qed.

Lemma slice_round_trip {A} (f : envelope_field) (enc : A -> error + JSON)
    (dec : JSON -> error + A) (s : slice A) :
  (forall x, x ∈ elems s -> exists j, enc x = inr j /\ dec j = inr x) ->
  exists j, encode_slice enc s = inr j /\ decode_slice f dec j = inr s.
Proof.
  destruct s as [l|]; simpl; intros Hall; [|by exists JNull].
  destruct (items_round_trip enc dec l Hall) as (js & Hjs & Hds).
  exists (JArray js). rewrite Hjs. simpl. by rewrite Hds.
Qed.

Section Codec.
Variable equalFold : string -> string -> bool.
Variable unmarshalURN : JSON -> error + URN.
Variable unmarshalGroup : JSON -> error + Group.
Variable unmarshalFields : JSON -> error + Fields.
Variable sanitize : string -> string.
Variable marshalURN : URN -> error + JSON.
Variable marshalGroup : Group -> error + JSON.
Variable marshalFields : Fields -> error + JSON.

Local Abbreviation ReadContact :=
  (ContactJSON.ReadContact equalFold unmarshalURN unmarshalGroup unmarshalFields).
Local Abbreviation UnmarshalJSON :=
  (ContactJSON.UnmarshalJSON equalFold unmarshalURN unmarshalGroup unmarshalFields).
Local Abbreviation decode_members :=
  (ContactJSON.decode_members equalFold unmarshalURN unmarshalGroup unmarshalFields).
Local Abbreviation decode_member :=
  (ContactJSON.decode_member equalFold unmarshalURN unmarshalGroup unmarshalFields).
Local Abbreviation MarshalJSON :=
  (ContactAccess.MarshalJSON sanitize marshalURN marshalGroup marshalFields).

(** X5: a contact whose strings are valid UTF-8 and whose URNs, groups
    and fields are written in a form their decoders read back is encoded
    without error, and reading the encoding gives the contact again, its
    nil lists and nil fields replaced by empty ones. *)
Theorem ReadContact_MarshalJSON_round_trip (c : Contact) :
  sanitize (uuid c) = uuid c ->
  sanitize (name c) = name c ->
  sanitize (language c) = language c ->
  (forall u, u ∈ elems (urns c) ->
     exists j, marshalURN u = inr j /\ unmarshalURN j = inr u) ->
  (forall g, g ∈ elems (groups c) ->
     exists j, marshalGroup g = inr j /\ unmarshalGroup j = inr g) ->
  (forall fs, fields c = Some fs ->
     exists j, marshalFields fs = inr j /\ j <> JNull /\ unmarshalFields j = inr fs) ->
  exists doc,
    MarshalJSON c = inr doc /\ ReadContact doc = (without_nil c, None).
Proof.
  intros Hu Hn Hl Hurns Hgroups Hfields.
  destruct (slice_round_trip F_urns marshalURN unmarshalURN (urns c) Hurns)
    as (ju & Heu & Hdu).
  destruct (slice_round_trip F_groups marshalGroup unmarshalGroup (groups c) Hgroups)
    as (jg & Heg & Hdg).
  unfold ContactAccess.MarshalJSON. simpl. rewrite Heu, Heg.
  destruct (fields c) as [fs|] eqn:Hf.
  - destruct (Hfields fs eq_refl) as (jf & Hef & Hnull & Hdf). rewrite Hef.
    eexists; split; [reflexivity|].
    unfold ContactJSON.ReadContact, ContactJSON.UnmarshalJSON, unmarshal_envelope.
    unfold ContactJSON.decode_members, ContactJSON.decode_member,
      ContactJSON.field_for_key. simpl.
    rewrite Hdu, Hdg. unfold decode_fields.
    destruct jf; try contradiction; rewrite Hdf; simpl;
      unfold without_nil; rewrite Hu, Hn, Hl, Hf; reflexivity.
  - eexists; split; [reflexivity|].
    unfold ContactJSON.ReadContact, ContactJSON.UnmarshalJSON, unmarshal_envelope.
    unfold ContactJSON.decode_members, ContactJSON.decode_member,
      ContactJSON.field_for_key. simpl.
    rewrite Hdu, Hdg. simpl.
    unfold without_nil; rewrite Hu, Hn, Hl, Hf; reflexivity.
Qed.

(** X6: when the envelope does not decode, [UnmarshalJSON] returns the
    error and leaves the contact as it was, so [ReadContact] returns the
    zero contact, whose lists and fields are nil; when it decodes, the
    contact is rebuilt whole and nothing of its previous state is left. *)
Theorem UnmarshalJSON_all_or_nothing (c : Contact) (data : JSON) :
  (forall err, snd (UnmarshalJSON c data) = Some err ->
     fst (UnmarshalJSON c data) = c /\
     ReadContact data = (zeroContact, Some err) /\
     is_nil (URNs (fst (ReadContact data))) = true /\
     is_nil (Groups (fst (ReadContact data))) = true /\
     GetFields (fst (ReadContact data)) = None) /\
  (snd (UnmarshalJSON c data) = None ->
     forall c', UnmarshalJSON c' data = UnmarshalJSON c data).
Proof.
  unfold ContactJSON.ReadContact, ContactJSON.UnmarshalJSON.
  destruct (unmarshal_envelope _ _ _ _ data) as [e|ce]; simpl; split.
  - intros err [= <-]. repeat split.
  - discriminate.
  - discriminate.
  - reflexivity.
Qed.

Lemma decode_members_app (m1 m2 : list (string * JSON)) (ce : contactEnvelope) :
  decode_members (m1 ++ m2) ce =
  match decode_members m1 ce with
  | inl err => inl err
  | inr ce' => decode_members m2 ce'
  end.
Proof.
  revert ce; induction m1 as [|kv m1 IH]; intros ce; simpl; [reflexivity|].
  destruct (decode_member ce kv) as [err|ce']; [reflexivity | apply IH].
Qed.

(** X7: a member whose key matches no member of the envelope, neither
    exactly nor by case folding, is skipped whatever its value is:
    reading the document with it or without it gives the same contact
    and the same error. *)
Theorem ReadContact_skips_unknown_member
    (m1 m2 : list (string * JSON)) (key : string) (v : JSON) :
  field_for_key equalFold key = None ->
  ReadContact (JObject (m1 ++ (key, v) :: m2)) = ReadContact (JObject (m1 ++ m2)).
Proof.
  intros Hkey.
  unfold ContactJSON.ReadContact, ContactJSON.UnmarshalJSON, unmarshal_envelope.
  rewrite !decode_members_app.
  destruct (decode_members m1 zeroEnvelope) as [err|ce]; [reflexivity|].
  simpl. unfold ContactJSON.decode_member at 1. simpl. rewrite Hkey. reflexivity.
Qed.
End Codec.

Lemma ReadContact_MarshalJSON_round_trip_witness :
  exists doc,
    ContactAccess.MarshalJSON as_is urn_to_json group_to_json fields_to_json ann
      = inr doc /\
    ContactJSON.ReadContact ascii_fold urn_of_json group_of_json fields_of_json doc
      = (without_nil ann, None).
Proof.
  apply (ReadContact_MarshalJSON_round_trip ascii_fold urn_of_json group_of_json
           fields_of_json as_is urn_to_json group_to_json fields_to_json ann);
    try reflexivity.
  - intros u _. by eexists.
  - intros [gu gn] _. by eexists.
  - discriminate.
Defined.

Lemma UnmarshalJSON_all_or_nothing_witness :
  ContactJSON.ReadContact ascii_fold urn_of_json group_of_json fields_of_json
    (JObject [("urns", JString "tel:+250781234567")])
  = (zeroContact,
     Some (type_error (Some F_urns) (JString "tel:+250781234567"))).
Proof.
  apply (proj1 (UnmarshalJSON_all_or_nothing ascii_fold urn_of_json group_of_json
                  fields_of_json ann
                  (JObject [("urns", JString "tel:+250781234567")]))).
  reflexivity.
Defined.

Lemma ReadContact_skips_unknown_member_witness :
  ContactJSON.ReadContact ascii_fold urn_of_json group_of_json fields_of_json
    (JObject [("name", JString "Ann"); ("timezone", JArray [JNull]); ("urns", JNull)])
  = ContactJSON.ReadContact ascii_fold urn_of_json group_of_json fields_of_json
      (JObject [("name", JString "Ann"); ("urns", JNull)]).
Proof.
  apply (ReadContact_skips_unknown_member ascii_fold urn_of_json group_of_json
           fields_of_json [("name", JString "Ann")] [("urns", JNull)]
           "timezone" (JArray [JNull])).
  reflexivity.
Defined.

End ContactCodecFacts.

(** ** The missing dependency check: composition and counts *)
Module IssueMoreFacts.
Import Issues Fixtures.

Section Check.
Context {R : Type} `{Reference R} {SessionAssets Flow : Type}.
Variable Check : ExtractedReference R -> SessionAssets -> bool.

(** X8: checking a list of references that is the concatenation of two
    lists is checking the first and then, from the state that leaves,
    the second; the issues reported are those of the first followed by
    those of the second. *)
Theorem MissingDependencyCheck_app (sa : SessionAssets) (flow : Flow)
    (refs1 refs2 : list (ExtractedReference R)) :
  (forall (S : Type) (report : MissingDependency R -> S -> S) (s : S),
      MissingDependencyCheck Check sa flow (refs1 ++ refs2) report s =
      MissingDependencyCheck Check sa flow refs2 report
        (MissingDependencyCheck Check sa flow refs1 report s)) /\
  reported Check sa flow (refs1 ++ refs2) =
  reported Check sa flow refs1 ++ reported Check sa flow refs2.
Proof.
  split.
  - intros S report s. unfold MissingDependencyCheck. apply fold_left_app.
  - unfold reported, MissingDependencyCheck.
    rewrite !IssueFacts.collect_from. simpl.
    by rewrite filter_app, fmap_app.
Qed.

(** X9: there are never more issues than references, and there are as
    many exactly when the check of every reference fails. *)
Theorem reported_count (sa : SessionAssets) (flow : Flow)
    (refs : list (ExtractedReference R)) :
  length (reported Check sa flow refs) <= length refs /\
  (length (reported Check sa flow refs) = length refs <->
   forall ref, ref ∈ refs -> Check ref sa = false).
Proof.
  unfold reported, MissingDependencyCheck.
  rewrite IssueFacts.collect_from. simpl. rewrite length_fmap.
  induction refs as [|ref refs [IHle IHeq]]; simpl.
  - split; [lia|]. split; [intros _ r Hr; by apply elem_of_nil in Hr | reflexivity].
  - rewrite filter_cons. destruct (Check ref sa) eqn:Hc; simpl.
    + split; [lia|]. split.
      * intros Hlen. lia.
      * intros Hall. specialize (Hall ref (list_elem_of_here _ _)). congruence.
    + split; [lia|]. split.
      * intros Hlen r Hr. apply elem_of_cons in Hr as [->|Hr]; [exact Hc|].
        apply IHeq; [lia | exact Hr].
      * intros Hall. f_equal. apply IHeq. intros r Hr. apply Hall. by right.
Qed.
End Check.

Lemma reported_count_witness :
  length (reported check_known [] tt sample_refs) = length sample_refs.
Proof.
  apply (proj2 (reported_count check_known [] tt sample_refs)).
  apply Forall_forall. decide_closed.
Defined.

End IssueMoreFacts.

(** ** The server asset source: typed access and the mock *)
Module AssetAccessFacts.
Import GoSlice GoError AssetServer AssetAccess Fixtures Samples.

Section Typed.
Context {Channel Group Label Location Resthook : Type}.
Local Abbreviation Asset := (@AssetAccess.Asset Channel Group Label Resthook).
Variable cache_getAsset : string -> assetFetcher -> AssetType -> Asset * option error.

Local Abbreviation unsupported itemType :=
  (Errorf ("asset type '" +:+ itemType +:+ "' not supported by asset server")).


(** X11: each typed accessor, [Channels], [Groups], [Labels] and
    [Resthooks], fails with the unsupported-type error naming its type
    when the source has no URL for it; otherwise it gives a set exactly
    when the cache holds for that URL a set of the accessor's type and
    no error, gives the wrong-type error for a nil asset and for an
    asset of any other type, and passes an error of the cache on as it
    is; no set comes with an error. *)
Theorem typed_accessors_assert_their_type (s : ServerSource) (fetcher : assetFetcher) :
  ((typeURLs s !! assetTypeChannel = None ->
    Channels cache_getAsset s fetcher = (nil_slice, Some (unsupported assetTypeChannel))) /\
   (forall url, typeURLs s !! assetTypeChannel = Some url ->
      (forall set, Channels cache_getAsset s fetcher = (set, None) <->
                   cache_getAsset url fetcher assetTypeChannel = (ChannelSet set, None)) /\
      (forall asset, cache_getAsset url fetcher assetTypeChannel = (asset, None) ->
                     (forall set, asset <> ChannelSet set) ->
                     Channels cache_getAsset s fetcher = (nil_slice, Some wrong_type)) /\
      (forall asset err, cache_getAsset url fetcher assetTypeChannel = (asset, Some err) ->
                         Channels cache_getAsset s fetcher = (nil_slice, Some err)))) /\
  ((typeURLs s !! assetTypeGroup = None ->
    Groups cache_getAsset s fetcher = (nil_slice, Some (unsupported assetTypeGroup))) /\
   (forall url, typeURLs s !! assetTypeGroup = Some url ->
      (forall set, Groups cache_getAsset s fetcher = (set, None) <->
                   cache_getAsset url fetcher assetTypeGroup = (GroupSet set, None)) /\
      (forall asset, cache_getAsset url fetcher assetTypeGroup = (asset, None) ->
                     (forall set, asset <> GroupSet set) ->
                     Groups cache_getAsset s fetcher = (nil_slice, Some wrong_type)) /\
      (forall asset err, cache_getAsset url fetcher assetTypeGroup = (asset, Some err) ->
                         Groups cache_getAsset s fetcher = (nil_slice, Some err)))) /\
  ((typeURLs s !! assetTypeLabel = None ->
    Labels cache_getAsset s fetcher = (nil_slice, Some (unsupported assetTypeLabel))) /\
   (forall url, typeURLs s !! assetTypeLabel = Some url ->
      (forall set, Labels cache_getAsset s fetcher = (set, None) <->
                   cache_getAsset url fetcher assetTypeLabel = (LabelSet set, None)) /\
      (forall asset, cache_getAsset url fetcher assetTypeLabel = (asset, None) ->
                     (forall set, asset <> LabelSet set) ->
                     Labels cache_getAsset s fetcher = (nil_slice, Some wrong_type)) /\
      (forall asset err, cache_getAsset url fetcher assetTypeLabel = (asset, Some err) ->
                         Labels cache_getAsset s fetcher = (nil_slice, Some err)))) /\
  ((typeURLs s !! assetTypeResthook = None ->
    Resthooks cache_getAsset s fetcher = (nil_slice, Some (unsupported assetTypeResthook))) /\
   (forall url, typeURLs s !! assetTypeResthook = Some url ->
      (forall set, Resthooks cache_getAsset s fetcher = (set, None) <->
                   cache_getAsset url fetcher assetTypeResthook = (ResthookSet set, None)) /\
      (forall asset, cache_getAsset url fetcher assetTypeResthook = (asset, None) ->
                     (forall set, asset <> ResthookSet set) ->
                     Resthooks cache_getAsset s fetcher = (nil_slice, Some wrong_type)) /\
      (forall asset err, cache_getAsset url fetcher assetTypeResthook = (asset, Some err) ->
                         Resthooks cache_getAsset s fetcher = (nil_slice, Some err)))).
Proof.
  unfold Channels, Groups, Labels, Resthooks, GetAsset, getAssetURL.
  split; [|split; [|split]].
  all: split; [intros ->; reflexivity|].
  all: intros url Hurl; rewrite Hurl; simpl.
  all: split; [|split].
  all: try (intros set;
            destruct (cache_getAsset url fetcher _) as [[] [e|]]; simpl;
            split; congruence).
  all: try (intros asset Hc Hno; rewrite Hc;
            destruct asset; try reflexivity; by destruct (Hno set)).
  all: intros asset err Hc; rewrite Hc; reflexivity.
Qed.
End Typed.


Lemma typed_accessors_assert_their_type_witness :
  Groups group_cache group_source no_fetcher = (Some ["Testers"; "Males"], None) /\
  Channels group_cache group_source no_fetcher =
    (nil_slice,
     Some (errors_New "asset type 'channel' not supported by asset server")) /\
  Labels group_cache labelled_source no_fetcher =
    (nil_slice, Some (errors_New "asset cache contains asset with wrong type")) /\
  Resthooks group_cache (hooked_source) no_fetcher =
    (nil_slice, Some (errors_New "not cached")).
Proof.
  split; [|split; [|split]].
  - apply (proj1 (proj2 (proj1 (proj2 (typed_accessors_assert_their_type group_cache
                                         group_source no_fetcher)))
                    group_url eq_refl)).
    reflexivity.
  - apply (proj1 (proj1 (typed_accessors_assert_their_type group_cache group_source
                           no_fetcher))).
    reflexivity.
  - apply (proj1 (proj2 (proj2 (proj1 (proj2 (proj2
             (typed_accessors_assert_their_type group_cache labelled_source
                no_fetcher)))) group_url eq_refl))
             (GroupSet (Some ["Testers"; "Males"]))).
    + reflexivity.
    + discriminate.
  - apply (proj2 (proj2 (proj2 (proj2 (proj2 (proj2
             (typed_accessors_assert_their_type group_cache hooked_source
                no_fetcher)))) flow_url eq_refl))
             NilAsset).
    reflexivity.
Defined.

(** X12: the mock answers a URL with the response configured last for
    it, whatever was configured for other URLs, and a URL for which
    nothing is configured with the empty results; it never fails. *)
Theorem mock_answers_configured_response (s : MockServerSource)
    (url : string) (response : slice Byte.byte) (itemType : AssetType) :
  fst (mock_fetchAsset (MockResponse s url response) url itemType)
    = (response, None) /\
  (forall url', url' <> url ->
     fst (mock_fetchAsset (MockResponse s url response) url' itemType)
     = fst (mock_fetchAsset s url' itemType)) /\
  (mockResponses s !! url = None ->
     fst (mock_fetchAsset s url itemType) = (empty_results, None)) /\
  snd (fst (mock_fetchAsset s url itemType)) = None.
Proof.
  unfold mock_fetchAsset, MockResponse; simpl. repeat split.
  - by rewrite lookup_insert_eq.
  - intros url' Hne. rewrite lookup_insert_ne by congruence.
    by destruct (mockResponses s !! url').
  - intros ->. reflexivity.
  - by destruct (mockResponses s !! url).
Qed.

Lemma mock_answers_configured_response_witness :
  fst (mock_fetchAsset mocked_groups flow_url "flow") = (empty_results, None) /\
  fst (mock_fetchAsset (MockResponse mocked_groups group_url None) flow_url "flow")
    = fst (mock_fetchAsset mocked_groups flow_url "flow").
Proof.
  split.
  - apply (proj1 (proj2 (proj2 (mock_answers_configured_response mocked_groups
                                  flow_url None "flow")))).
    reflexivity.
  - apply (proj1 (proj2 (mock_answers_configured_response mocked_groups
                           group_url None "flow"))).
    discriminate.
Defined.

Lemma mock_answers_configured_response_aux (s : MockServerSource) (url : string)
    (itemType : AssetType) :
  snd (fst (mock_fetchAsset s url itemType)) = None.
Proof. unfold mock_fetchAsset; simpl. by destruct (mockResponses s !! url). Qed.

Lemma mock_fetchAsset_requests (s : MockServerSource) (url : string)
    (itemType : AssetType) :
  mockedRequests (snd (mock_fetchAsset s url itemType)) = mockedRequests s ++ [url] /\
  mockResponses (snd (mock_fetchAsset s url itemType)) = mockResponses s /\
  mock_typeURLs (snd (mock_fetchAsset s url itemType)) = mock_typeURLs s.
Proof.
  unfold mock_fetchAsset; simpl. by destruct (mockResponses s !! url).
Qed.

(** X13: the mock records every URL it is asked for, in the order of
    the requests and as often as it is asked, whether a response is
    configured for it or not; fetching changes no configured response,
    gives one answer for each request and never an error. *)
Theorem mock_records_every_request (s : MockServerSource)
    (urls : list (string * AssetType)) :
  MockedRequests (snd (mock_fetch_all s urls)) = MockedRequests s ++ (fst <$> urls) /\
  mockResponses (snd (mock_fetch_all s urls)) = mockResponses s /\
  length (fst (mock_fetch_all s urls)) = length urls /\
  Forall (fun answer => snd answer = None) (fst (mock_fetch_all s urls)).
Proof.
  unfold MockedRequests.
  revert s; induction urls as [|[url itemType] urls IH]; intros s; simpl.
  - by rewrite app_nil_r.
  - destruct (mock_fetchAsset s url itemType) as [answer s'] eqn:Hf.
    pose proof (mock_fetchAsset_requests s url itemType) as (Hreq & Hresp & _).
    pose proof (mock_answers_configured_response_aux s url itemType) as Herr.
    rewrite Hf in Hreq, Hresp, Herr. simpl in *.
    destruct (mock_fetch_all s' urls) as [answers s''] eqn:Hall.
    specialize (IH s'). rewrite Hall in IH. simpl in *.
    destruct IH as (IHreq & IHresp & IHlen & IHerr).
    rewrite IHreq, Hreq, IHresp, Hresp, IHlen, <- app_assoc.
    repeat split. by constructor.
Qed.

End AssetAccessFacts.

(** ** The call_classifier action: every path *)
Module ClassifyMoreFacts.
Import GoError Classify ClassifyResults Fixtures Samples.

Section Action.
Variable Reference_String : ClassifierReference -> string.
Variable json_Marshal : Classification -> string.

Local Abbreviation Execute := (Classify.Execute Reference_String json_Marshal).

(** The paths of [Execute], by what the run answers. *)
Ltac paths a run step :=
  unfold Classify.Execute, classify, saveSuccess, saveSkipped, saveFailure, saveResult;
  destruct (run_EvaluateTemplate run (act_Input a)) as [input terr];
  cbn [fst snd] in *;
  destruct (String.eqb_spec input EmptyString) as [Hempty|Hinput];
  [| destruct (run_Classifiers run !! ref_UUID (act_Classifier a)) as [cl|] eqn:Hcl;
     [ destruct (run_Classification run cl) as [serr|svc] eqn:Hsvc;
       [| destruct (svc input) as [[c e] logs] eqn:Hanswer;
          destruct e as [e|]; destruct c as [c|]; destruct logs as [|l logs] ]
     | ] ];
  simpl.

(** X14: [Execute] never returns an error.  When it returns, it has
    stored one result under the action's result name, with that name,
    the step's node, the evaluated input and a category among success,
    skipped and failure, and has left every other result, the assets
    and the services of the run as they were; the events begin with the
    error of the template evaluation, if there was one, and end with the
    change of that result. *)
Theorem Execute_always_saves_one_result
    (a : CallClassifierAction) (run run' : FlowRun) (step : Step)
    (events : list Event) (err : option error) :
  Execute a run step = Returned run' events err ->
  err = None /\
  exists r before,
    run_Results run' = <[act_ResultName a := r]> (run_Results run) /\
    res_Name r = act_ResultName a /\
    res_NodeUUID r = step_NodeUUID step /\
    res_Input r = fst (run_EvaluateTemplate run (act_Input a)) /\
    res_Category r ∈ classificationCategories /\
    events = template_errors (snd (run_EvaluateTemplate run (act_Input a)))
             ++ before ++ [EvRunResultChanged r] /\
    run_Classifiers run' = run_Classifiers run /\
    run_EvaluateTemplate run' = run_EvaluateTemplate run /\
    run_Classification run' = run_Classification run.
Proof.
  paths a run step; (intros [= <- Hev <-] || intros [=]).
  all: rewrite <- ?app_assoc in Hev; subst events.
  all: split; [reflexivity|]; eexists _, _.
  all: split; [reflexivity|].
  all: split; [reflexivity|]; split; [reflexivity|]; split; [reflexivity|].
  all: split; [decide_closed|].
  all: split;
    [apply (f_equal (app _));
     first [ exact (eq_refl ([] ++ [_]))
           | exact (eq_refl ([_] ++ [_]))
           | exact (eq_refl ([_; _] ++ [_])) ]|].
  all: repeat split.
Qed.

(** X15: [Execute] breaks off without returning exactly when the input
    is not empty, the classifier is among the assets, its service is
    there and answers with neither a classification nor an error; no
    result has been saved then. *)
Theorem Execute_panics_only_on_nil_classification
    (a : CallClassifierAction) (run : FlowRun) (step : Step) :
  ((exists events, Execute a run step = Panicked events) <->
   fst (run_EvaluateTemplate run (act_Input a)) <> EmptyString /\
   exists cl svc logs,
     run_Classifiers run !! ref_UUID (act_Classifier a) = Some cl /\
     run_Classification run cl = inr svc /\
     svc (fst (run_EvaluateTemplate run (act_Input a))) = (None, None, logs)) /\
  (forall events r,
     Execute a run step = Panicked events -> EvRunResultChanged r ∉ events).
Proof.
  split.
  - paths a run step; split; try (intros [events [=]]; fail).
    all: try (intros [Hne _]; contradiction).
    all: try (intros [_ (cl' & svc' & logs' & Hc & Hs & Ha)]; congruence).
    all: try (intros _; split; [assumption|]; eexists _, _, _; eauto).
    all: intros _; by eexists.
  - intros events r.
    paths a run step; intros [= <-]; destruct terr as [terr|]; simpl;
      intros Hin; set_unfold in Hin; destruct_or?; try discriminate; done.
Qed.

Lemma Execute_calls (a : CallClassifierAction) (run : FlowRun) (step : Step) :
  List.filter is_classifier_called (events_logged (Execute a run step))
  = calls_due a run.
Proof.
  unfold calls_due.
  paths a run step; destruct terr as [terr|]; reflexivity.
Qed.

(** X16: of the events of one execution, whether it returns or breaks
    off on a nil classification, at most one is a classifier-called
    event; there is one exactly when the service was called and logged
    at least one HTTP call, and it carries the reference of the
    classifier and all the calls logged. *)
Theorem classifier_called_once_per_call
    (a : CallClassifierAction) (run : FlowRun) (step : Step) :
  length (List.filter is_classifier_called
            (events_logged (Execute a run step))) <= 1 /\
  (forall ref logs,
     EvClassifierCalled ref logs ∈ events_logged (Execute a run step) ->
     logs <> [] /\
     fst (run_EvaluateTemplate run (act_Input a)) <> EmptyString /\
     exists cl svc,
       run_Classifiers run !! ref_UUID (act_Classifier a) = Some cl /\
       ref = Classifier_Reference cl /\
       run_Classification run cl = inr svc /\
       snd (svc (fst (run_EvaluateTemplate run (act_Input a)))) = logs) /\
  (forall cl svc,
     fst (run_EvaluateTemplate run (act_Input a)) <> EmptyString ->
     run_Classifiers run !! ref_UUID (act_Classifier a) = Some cl ->
     run_Classification run cl = inr svc ->
     snd (svc (fst (run_EvaluateTemplate run (act_Input a)))) <> [] ->
     EvClassifierCalled (Classifier_Reference cl)
       (snd (svc (fst (run_EvaluateTemplate run (act_Input a)))))
       ∈ events_logged (Execute a run step)).
Proof.
  pose proof (Execute_calls a run step) as Hcalls.
  assert (forall e, is_classifier_called e = true ->
                    e ∈ events_logged (Execute a run step) <-> e ∈ calls_due a run)
    as Hmem.
  { intros e He. rewrite <- Hcalls, !list_elem_of_In, filter_In. tauto. }
  split; [|split].
  - rewrite Hcalls. unfold calls_due.
    repeat (case_match; simpl; try lia).
  - intros ref logs Hin. apply (Hmem (EvClassifierCalled ref logs) eq_refl) in Hin.
    unfold calls_due in Hin.
    destruct (String.eqb_spec (fst (run_EvaluateTemplate run (act_Input a)))
                EmptyString) as [|Hne]; [by apply elem_of_nil in Hin|].
    destruct (run_Classifiers run !! _) as [cl|]; [|by apply elem_of_nil in Hin].
    destruct (run_Classification run cl) as [|svc] eqn:Hsvc;
      [by apply elem_of_nil in Hin|].
    destruct (snd (svc _)) as [|l logs'] eqn:Hlogs; [by apply elem_of_nil in Hin|].
    apply list_elem_of_singleton in Hin. injection Hin as -> ->.
    split; [discriminate|]. split; [exact Hne|]. by exists cl, svc.
  - intros cl svc Hne Hcl Hsvc Hlogs.
    apply (Hmem (EvClassifierCalled _ _) eq_refl).
    unfold calls_due. rewrite Hcl, Hsvc.
    destruct (String.eqb_spec (fst (run_EvaluateTemplate run (act_Input a)))
                EmptyString); [contradiction|].
    destruct (snd (svc _)); [contradiction|]. by left.
Qed.

(** X17: when the service answers with a classification and no error,
    the result saved has the category success, as value the name of the
    first intent, or nothing if there is no intent, and as extra the
    encoded classification; the only error event is that of the
    template evaluation, if there was one. *)
Theorem Execute_success_saves_top_intent
    (a : CallClassifierAction) (run : FlowRun) (step : Step)
    (cl : Classifier) (svc : ClassificationService) (c : Classification)
    (logs : list HTTPLog) :
  fst (run_EvaluateTemplate run (act_Input a)) <> EmptyString ->
  run_Classifiers run !! ref_UUID (act_Classifier a) = Some cl ->
  run_Classification run cl = inr svc ->
  svc (fst (run_EvaluateTemplate run (act_Input a))) = (Some c, None, logs) ->
  exists run' events r,
    Execute a run step = Returned run' events None /\
    r = NewResult (act_ResultName a)
          (match Intents c with
           | i :: _ => intent_Name i
           | [] => EmptyString
           end)
          "success" EmptyString (step_NodeUUID step)
          (fst (run_EvaluateTemplate run (act_Input a)))
          (Some (json_Marshal c)) /\
    run_Results run' !! act_ResultName a = Some r /\
    events =
      template_errors (snd (run_EvaluateTemplate run (act_Input a)))
      ++ (if logs is [] then [] else [EvClassifierCalled (Classifier_Reference cl) logs])
      ++ [EvRunResultChanged r].
Proof.
  intros Hne Hcl Hsvc Hanswer.
  unfold Classify.Execute, classify, saveSuccess, saveResult.
  destruct (run_EvaluateTemplate run (act_Input a)) as [input terr]. simpl in *.
  destruct (String.eqb_spec input EmptyString); [contradiction|].
  rewrite Hcl, Hsvc, Hanswer.
  eexists _, _, _. split; [reflexivity|]. split; [reflexivity|]. split.
  - simpl. apply lookup_insert_eq.
  - destruct logs; simpl; [reflexivity | by rewrite <- app_assoc].
Qed.

(** X18: when the service of the classifier cannot be had, or its call
    returns an error, the result saved has the category failure and the
    value "0" and no extra, also if a classification came back with the
    error; the error is logged as an error event just before the change
    of the result, and the service that cannot be had logs no call. *)
Theorem Execute_service_error_saves_failure
    (a : CallClassifierAction) (run : FlowRun) (step : Step) (cl : Classifier) :
  fst (run_EvaluateTemplate run (act_Input a)) <> EmptyString ->
  run_Classifiers run !! ref_UUID (act_Classifier a) = Some cl ->
  let input := fst (run_EvaluateTemplate run (act_Input a)) in
  let failure :=
    NewResult (act_ResultName a) "0" "failure" EmptyString (step_NodeUUID step)
      input None in
  (forall e, run_Classification run cl = inl e ->
     exists run',
       Execute a run step =
         Returned run'
           (template_errors (snd (run_EvaluateTemplate run (act_Input a)))
            ++ [EvError (Error e); EvRunResultChanged failure]) None /\
       run_Results run' !! act_ResultName a = Some failure) /\
  (forall svc c e logs, run_Classification run cl = inr svc ->
     svc input = (c, Some e, logs) ->
     exists run',
       Execute a run step =
         Returned run'
           (template_errors (snd (run_EvaluateTemplate run (act_Input a)))
            ++ (if logs is [] then []
                else [EvClassifierCalled (Classifier_Reference cl) logs])
            ++ [EvError (Error e); EvRunResultChanged failure]) None /\
       run_Results run' !! act_ResultName a = Some failure).
Proof.
  intros Hne Hcl input failure. subst input failure.
  unfold Classify.Execute, classify, saveFailure, saveResult.
  destruct (run_EvaluateTemplate run (act_Input a)) as [input terr]. simpl in *.
  destruct (String.eqb_spec input EmptyString); [contradiction|].
  rewrite Hcl. split.
  - intros e ->. eexists.
    split; [simpl; rewrite <- app_assoc; reflexivity | apply lookup_insert_eq].
  - intros svc c e logs -> ->. eexists.
    split; [destruct logs; simpl; rewrite <- ?app_assoc; reflexivity
           | apply lookup_insert_eq].
Qed.

(** X19: an action with a result name declares one result, under that
    name, for the node and with the categories success, skipped and
    failure, in that order, by one call of [include]; an action without
    a result name declares none; and the result an execution saves has
    the action's result name and one of those three categories. *)
Theorem saved_result_is_declared
    (a : CallClassifierAction) (node : NodeUUID) :
  (act_ResultName a = EmptyString -> declared a node = []) /\
  (act_ResultName a <> EmptyString ->
   declared a node =
     [NewResultInfo (act_ResultName a) ["success"; "skipped"; "failure"] node]) /\
  (forall (S : Type) (include : ResultInfo -> S -> S) (s : S),
     Results a node include s = fold_left (fun s i => include i s) (declared a node) s) /\
  (forall run run' step events err r,
     Execute a run step = Returned run' events err ->
     run_Results run' !! act_ResultName a = Some r ->
     res_Name r = act_ResultName a /\
     res_Category r ∈ ["success"; "skipped"; "failure"]).
Proof.
  unfold declared, Results. split; [|split; [|split]].
  - intros ->. reflexivity.
  - intros Hname.
    destruct (String.eqb_spec (act_ResultName a) EmptyString); [contradiction|].
    reflexivity.
  - intros S include s.
    by destruct (String.eqb (act_ResultName a) EmptyString).
  - intros run run' step events err r.
    paths a run step; (intros [= <- <- <-] || intros [=]); simpl;
      rewrite lookup_insert_eq; intros [= <-]; simpl;
      (split; [reflexivity | decide_closed]).
Qed.

End Action.

Lemma Execute_always_saves_one_result_witness :
  exists r before,
    run_Results (run_of classified run_with_classifier) =
      <["Intent" := r]> (run_Results run_with_classifier) /\
    res_Category r = "success" /\
    events_of classified = before ++ [EvRunResultChanged r].
Proof.
  destruct (Execute_always_saves_one_result show_reference show_classification
              classify_intent run_with_classifier
              (run_of classified run_with_classifier) first_step
              (events_of classified) None eq_refl)
    as (_ & r & before & Hres & _ & _ & _ & _ & Hev & _).
  exists r, before. split; [exact Hres|]. split; [|exact Hev].
  assert (run_Results (run_of classified run_with_classifier) !! "Intent" = Some r)
    as Hlook by (rewrite Hres; apply lookup_insert_eq).
  vm_compute in Hlook. injection Hlook as <-. reflexivity.
Defined.

Lemma Execute_panics_only_on_nil_classification_witness :
  exists events,
    Classify.Execute show_reference show_classification classify_intent
      run_with_empty_answer first_step = Panicked events.
Proof.
  apply (proj2 (proj1 (Execute_panics_only_on_nil_classification show_reference
                         show_classification classify_intent
                         run_with_empty_answer first_step))).
  split; [discriminate|].
  eexists _, _, _. repeat split; reflexivity.
Defined.

Lemma classifier_called_once_per_call_witness :
  EvClassifierCalled (Classifier_Reference booking_classifier) one_call
    ∈ events_logged
        (Classify.Execute show_reference show_classification classify_intent
           run_with_classifier first_step) /\
  EvClassifierCalled (Classifier_Reference booking_classifier) one_call
    ∈ events_logged
        (Classify.Execute show_reference show_classification classify_intent
           run_with_empty_answer first_step).
Proof.
  split.
  - apply (proj2 (proj2 (classifier_called_once_per_call show_reference
                           show_classification classify_intent run_with_classifier
                           first_step))
             booking_classifier (fun _ => (Some two_intents, None, one_call)));
      [discriminate | reflexivity | reflexivity | discriminate].
  - apply (proj2 (proj2 (classifier_called_once_per_call show_reference
                           show_classification classify_intent run_with_empty_answer
                           first_step))
             booking_classifier (fun _ => (None, None, one_call)));
      [discriminate | reflexivity | reflexivity | discriminate].
Defined.

Lemma Execute_success_saves_top_intent_witness :
  exists run' events r,
    Classify.Execute show_reference show_classification classify_intent
      run_with_classifier first_step = Returned run' events None /\
    res_Value r = "book_flight" /\
    run_Results run' !! "Intent" = Some r.
Proof.
  destruct (Execute_success_saves_top_intent show_reference show_classification
              classify_intent run_with_classifier first_step booking_classifier
              (fun _ => (Some two_intents, None, one_call)) two_intents one_call)
    as (run' & events & r & Hex & Hr & Hlook & _);
    [discriminate | reflexivity | reflexivity | reflexivity |].
  exists run', events, r. split; [exact Hex|]. split; [|exact Hlook].
  rewrite Hr. reflexivity.
Defined.

Lemma Execute_service_error_saves_failure_witness :
  exists run',
    Classify.Execute show_reference show_classification classify_intent
      run_with_failing_call first_step =
      Returned run'
        [ EvClassifierCalled (Classifier_Reference booking_classifier) one_call;
          EvError "wit.ai returned 502";
          EvRunResultChanged
            (NewResult "Intent" "0" "failure" EmptyString
               "a58be63b-907d-4a1a-856b-0bb5579d7507" "book a flight to Quito" None) ]
        None.
Proof.
  destruct (proj2 (Execute_service_error_saves_failure show_reference
                     show_classification classify_intent run_with_failing_call
                     first_step booking_classifier
                     ltac:(discriminate) eq_refl)
              (fun _ => (Some two_intents, Some (errors_New "wit.ai returned 502"),
                         one_call))
              (Some two_intents) (errors_New "wit.ai returned 502") one_call
              eq_refl eq_refl) as (run' & Hex & _).
  exists run'. exact Hex.
Defined.

Lemma saved_result_is_declared_witness :
  declared classify_intent "a58be63b-907d-4a1a-856b-0bb5579d7507" =
    [NewResultInfo "Intent" ["success"; "skipped"; "failure"]
       "a58be63b-907d-4a1a-856b-0bb5579d7507"] /\
  (forall r,
     run_Results (run_of classified run_with_classifier) !! "Intent" = Some r ->
     res_Name r = "Intent" /\ res_Category r ∈ ["success"; "skipped"; "failure"]).
Proof.
  split.
  - apply (proj1 (proj2 (saved_result_is_declared show_reference show_classification
                           classify_intent "a58be63b-907d-4a1a-856b-0bb5579d7507"))).
    discriminate.
  - intros r.
    apply (proj2 (proj2 (proj2 (saved_result_is_declared show_reference
                                  show_classification classify_intent
                                  "a58be63b-907d-4a1a-856b-0bb5579d7507")))
             run_with_classifier (run_of classified run_with_classifier)
             first_step (events_of classified) None r eq_refl).
Defined.

End ClassifyMoreFacts.

(** ** The session assets *)
Module EngineFacts.
Import GoSlice GoError Engine Fixtures Samples.

Section Assets.
Context {Channel Field Group Label Location Resthook : Type}.
Context {ChannelAssets FieldAssets FlowAssets GroupAssets : Type}.
Context {LabelAssets LocationAssets ResthookAssets : Type}.
Context {World : Type}.
Local Abbreviation AssetSource :=
  (@Engine.AssetSource Channel Field Group Label Location Resthook World).
Variable NewChannelAssets : slice Channel -> ChannelAssets.
Variable NewFieldAssets : slice Field -> FieldAssets.
Variable NewFlowAssets : AssetSource -> FlowAssets.
Variable NewGroupAssets : slice Group -> GroupAssets.
Variable NewLabelAssets : slice Label -> LabelAssets.
Variable NewLocationAssets : slice Location -> LocationAssets.
Variable NewResthookAssets : slice Resthook -> ResthookAssets.

Local Abbreviation NewSessionAssets :=
  (Engine.NewSessionAssets NewChannelAssets NewFieldAssets NewFlowAssets
     NewGroupAssets NewLabelAssets NewLocationAssets NewResthookAssets).

(** X20: the session assets are built by asking the source for its
    channels, fields, groups, labels, locations and resthooks, in that
    order and each once, up to the first that fails: the error returned
    is the error of that loader, no loader after it is asked, and there
    are session assets exactly when no loader fails. *)
Theorem NewSessionAssets_fails_fast (src : AssetSource) (w : World) :
  (snd (fst (NewSessionAssets src w)), snd (NewSessionAssets src w))
    = until_error (loaders src) w /\
  (fst (fst (NewSessionAssets src w)) <> None <->
   snd (fst (NewSessionAssets src w)) = None).
Proof.
  unfold Engine.NewSessionAssets, loaders, until_error, outcome_of.
  destruct (src_Channels src w) as [[x1 [e1|]] w1]; simpl;
    [split; [reflexivity | split; [congruence | discriminate]]|].
  destruct (src_Fields src w1) as [[x2 [e2|]] w2]; simpl;
    [split; [reflexivity | split; [congruence | discriminate]]|].
  destruct (src_Groups src w2) as [[x3 [e3|]] w3]; simpl;
    [split; [reflexivity | split; [congruence | discriminate]]|].
  destruct (src_Labels src w3) as [[x4 [e4|]] w4]; simpl;
    [split; [reflexivity | split; [congruence | discriminate]]|].
  destruct (src_Locations src w4) as [[x5 [e5|]] w5]; simpl;
    [split; [reflexivity | split; [congruence | discriminate]]|].
  destruct (src_Resthooks src w5) as [[x6 [e6|]] w6]; simpl;
    [split; [reflexivity | split; [congruence | discriminate]]|].
  split; [reflexivity | split; [reflexivity | discriminate]].
Qed.
End Assets.

Lemma NewSessionAssets_fails_fast_witness :
  (snd (fst (Engine.NewSessionAssets count_of count_of (fun _ => 0) count_of
               count_of count_of count_of logging_source [])),
   snd (Engine.NewSessionAssets count_of count_of (fun _ => 0) count_of
          count_of count_of count_of logging_source []))
  = (Some (errors_New "groups unavailable"), ["channels"; "fields"; "groups"]).
Proof.
  rewrite (proj1 (NewSessionAssets_fails_fast count_of count_of (fun _ => 0)
                    count_of count_of count_of count_of logging_source [])).
  reflexivity.
Defined.

End EngineFacts.

(** ** The airtime transfer action *)
Module AirtimeFacts.
Import GoError Airtime Fixtures Samples.

Section Action.
Variable read_config : string -> error + transferToConfig.
Variable client_MSISDNInfo :
  string -> string -> string -> string -> string -> error + MSISDNInfo.
Variable CountryCodeFromName : string -> string.

Local Abbreviation attemptTransfer :=
  (Airtime.attemptTransfer client_MSISDNInfo CountryCodeFromName).
Local Abbreviation Execute :=
  (Airtime.Execute read_config client_MSISDNInfo CountryCodeFromName).

(** X21: [attemptTransfer] returns the amount zero whatever happens,
    also for a country with a configured amount; it succeeds exactly
    when the lookup of the recipient succeeds and the code of its
    country has a configuration that is not nil. *)
Theorem attemptTransfer_amount_is_zero (config : transferToConfig)
    (countryConfigs : gmap string (option CountryConfig)) (recipient : string) :
  fst (attemptTransfer config countryConfigs recipient) = decimal_Zero /\
  (snd (attemptTransfer config countryConfigs recipient) = None <->
   exists info countryConfig,
     client_MSISDNInfo (Account config) (APIToken config) recipient
       (Currency config) "1" = inr info /\
     countryConfigs !! CountryCodeFromName (info_Country info)
       = Some (Some countryConfig)).
Proof.
  unfold Airtime.attemptTransfer.
  destruct (client_MSISDNInfo _ _ _ _ _) as [err|info]; simpl.
  - split; [reflexivity|]. split; [discriminate|]. by intros (? & ? & ? & _).
  - destruct (countryConfigs !! _) as [[cc|]|] eqn:Hcc; simpl;
      (split; [reflexivity|]); split; try discriminate; try reflexivity.
    + intros _. by exists info, cc.
    + intros (i & cc' & [= <-] & Hc). congruence.
    + intros (i & cc' & [= <-] & Hc). congruence.
Qed.

(** X22: [Execute] returns an error exactly when there is a contact and
    a transferto configuration that cannot be read; the error says so
    and nothing has been logged. *)
Theorem Execute_fails_only_on_unreadable_config
    (a : TransferAirtimeAction) (run : FlowRun) :
  (snd (Execute a run) <> None <->
   exists urns rawConfig err,
     run_Contact run = Some urns /\ run_Extension run = Some rawConfig /\
     read_config rawConfig = inl err) /\
  (forall urns rawConfig err,
     run_Contact run = Some urns -> run_Extension run = Some rawConfig ->
     read_config rawConfig = inl err ->
     Execute a run = ([], Some (Errorf ("unable to read config: " +:+ Error err)))).
Proof.
  unfold Airtime.Execute. split.
  - destruct (run_Contact run) as [urns|]; simpl;
      [|split; [congruence | by intros (? & ? & ? & ? & _)]].
    destruct (run_Extension run) as [raw|]; simpl;
      [|split; [congruence | by intros (? & ? & ? & _ & ? & _)]].
    destruct (read_config raw) as [err|config] eqn:Hread; simpl.
    + split; [intros _; by exists urns, raw, err | discriminate].
    + split; [|intros (? & ? & ? & _ & [= <-] & ?); congruence].
      destruct (Disabled config); simpl; [congruence|].
      destruct (WithScheme urns "tel"); simpl; [congruence|].
      destruct (Airtime.attemptTransfer _ _ _ _ _) as [amount [e|]]; simpl;
        congruence.
  - intros urns raw err -> -> ->. reflexivity.
Qed.

(** X23: when [Execute] returns nil it has logged one of three things:
    a fatal error alone, when there is no contact; one transferred
    event alone, whose amount is one under a disabled configuration and
    zero after a transfer; or an error followed by the failed event. *)
Theorem Execute_logs_one_outcome (a : TransferAirtimeAction) (run : FlowRun) :
  snd (Execute a run) = None ->
  (run_Contact run = None /\
   fst (Execute a run) =
     [NewFatalErrorEvent "can't execute action in session without a contact"]) \/
  (exists config rawConfig,
     run_Extension run = Some rawConfig /\ read_config rawConfig = inr config /\
     fst (Execute a run) =
       [NewAirtimeTransferredEvent (Currency config)
          (if Disabled config then decimal_one else decimal_Zero)]) \/
  (exists text,
     run_Contact run <> None /\
     fst (Execute a run) = [NewErrorEvent text; NewFailedAirtimeTransferredEvent]).
Proof.
  unfold Airtime.Execute.
  destruct (run_Contact run) as [urns|]; simpl; [|intros _; by left].
  destruct (run_Extension run) as [raw|]; simpl;
    [|intros _; right; right; by eexists].
  destruct (read_config raw) as [err|config] eqn:Hread; simpl; [discriminate|].
  destruct (Disabled config) eqn:Hdis; simpl.
  - intros _. right; left. exists config, raw. by rewrite Hdis.
  - destruct (WithScheme urns "tel") as [|tel rest]; simpl;
      [intros _; right; right; by eexists|].
    destruct (Airtime.attemptTransfer _ _ _ _ _) as [amount [e|]] eqn:Hat; simpl;
      intros _; [right; right; by eexists|].
    right; left. exists config, raw. rewrite Hdis.
    assert (amount = decimal_Zero) as ->; [|done].
    unfold Airtime.attemptTransfer in Hat.
    destruct (client_MSISDNInfo _ _ _ _ _); [congruence|].
    destruct (_ !! _) as [[?|]|]; congruence.
Qed.
End Action.

Lemma attemptTransfer_amount_is_zero_witness :
  Airtime.attemptTransfer in_rwanda code_of transfer_config (Countries to_rwanda)
    "+250781234567" = (decimal_Zero, None).
Proof.
  pose proof (attemptTransfer_amount_is_zero in_rwanda code_of transfer_config
                (Countries to_rwanda) "+250781234567") as [Hamount Herr].
  destruct (Airtime.attemptTransfer _ _ _ _ _) as [amount err]. simpl in *.
  rewrite Hamount. f_equal. apply Herr. by eexists _, _.
Defined.

Lemma Execute_fails_only_on_unreadable_config_witness :
  Airtime.Execute read_sample_config in_rwanda code_of to_rwanda
    (mkFlowRun (Some []) (Some "{"))
  = ([], Some (errors_New "unable to read config: unexpected end of JSON input")).
Proof.
  apply (proj2 (Execute_fails_only_on_unreadable_config read_sample_config
                  in_rwanda code_of to_rwanda (mkFlowRun (Some []) (Some "{")))
           [] "{" (errors_New "unexpected end of JSON input"));
    reflexivity.
Defined.

Lemma Execute_logs_one_outcome_witness :
  fst (Airtime.Execute read_sample_config in_rwanda code_of to_rwanda rwandan_run)
  = [NewAirtimeTransferredEvent "RWF" decimal_Zero].
Proof.
  destruct (Execute_logs_one_outcome read_sample_config in_rwanda code_of
              to_rwanda rwandan_run eq_refl)
    as [[Hc _]|[(config & raw & Hraw & Hread & Hev)|(text & _ & Hev)]].
  - discriminate.
  - injection Hraw as <-. injection Hread as <-. exact Hev.
  - vm_compute in Hev. discriminate.
Defined.

End AirtimeFacts.
